(** * Custom Bee agent example: prompts, output schema, agent run, scripts

    A shallow embedding of [src/custom_agent_role_instruction_no_tools.ts]
    (the custom agent that answers in German) and of the second script that
    runs the stock agent with tools.

    The file has three layers.

    - Values and the two libraries the source leans on: JSON values, the
      small part of zod the schemas use, and the part of Mustache the two
      templates use.
    - The agent: the system prompt, the response schema, the chat template,
      [messagesToPrompt] and [_run].
    - The two scripts, as programs over a trace of observable calls with
      the three ways a JavaScript statement completes. *)

From Stdlib Require Import String Ascii List ZArith Bool Arith Lia DecimalString.
Import ListNotations.
Open Scope string_scope.

(* ================================================================== *)
(** ** Strings *)

Definition nl : string := String (ascii_of_nat 10) "".

(** Concatenation of the pieces a renderer produces, left to right. *)
Definition joined (pieces : list string) : string :=
  fold_right append "" pieces.

(* ================================================================== *)
(** ** JSON values

    What [JSON.parse] yields, and what a template is rendered against.
    Numbers are kept to the integers.  An object is an association list;
    a property is read at its first occurrence. *)

#[local] Unset Elimination Schemes.
Inductive json : Type :=
| JNull
| JBool (b : bool)
| JNum (z : Z)
| JStr (s : string)
| JArr (items : list json)
| JObj (fields : list (string * json)).
#[local] Set Elimination Schemes.

Fixpoint assoc {A : Type} (k : string) (l : list (string * A)) : option A :=
  match l with
  | [] => None
  | (k', v) :: rest => if k' =? k then Some v else assoc k rest
  end.

(** [v.k] where [v] is an object that has the property; [None] stands for
    [undefined]. *)
Definition js_get (k : string) (v : json) : option json :=
  match v with
  | JObj fields => assoc k fields
  | _ => None
  end.

(** [v.k] read as a string: [Some s] exactly when the property holds the
    string [s]. *)
Definition js_get_string (k : string) (v : json) : option string :=
  match js_get k v with
  | Some (JStr s) => Some s
  | _ => None
  end.

(** The string JavaScript appends for [buffer += v]: an array is its items
    joined by commas, with [null] items left empty. *)
Fixpoint js_to_string (v : json) : string :=
  match v with
  | JNull => "null"
  | JBool true => "true"
  | JBool false => "false"
  | JNum z => NilZero.string_of_int (Z.to_int z)
  | JStr s => s
  | JArr items =>
      String.concat ","
        (map (fun item => match item with
                          | JNull => ""
                          | _ => js_to_string item
                          end) items)
  | JObj _ => "[object Object]"
  end.

(** JavaScript truthiness of a looked-up value. *)
Definition js_truthy (v : json) : bool :=
  match v with
  | JNull => false
  | JBool b => b
  | JNum z => negb (z =? 0)%Z
  | JStr s => negb (s =? "")
  | JArr _ | JObj _ => true
  end.

(* ================================================================== *)
(** ** The part of zod the schemas use *)

(** [z.string()], with [.min(n)] and [.describe(text)] when given, and
    [z.object({...})]. *)
#[local] Unset Elimination Schemes.
Inductive ZodType : Type :=
| ZString (min : option nat) (description : option string)
| ZObject (shape : list (string * ZodType)).
#[local] Set Elimination Schemes.

Definition keys_known (shape : list (string * ZodType))
    (fields : list (string * json)) : bool :=
  forallb (fun kv => match assoc (fst kv) shape with
                     | Some _ => true
                     | None => false
                     end) fields.

(** Modelled from the spec: the validation layer is the framework's, not
    this repository's.  A string schema accepts a string of at least [min]
    characters; an object schema accepts an object that has every property
    of the shape with an accepted value.  Whether properties outside the
    shape are tolerated is left to [extra], so that nothing below depends
    on it.  A layer that first turns a number or [null] into a string is
    not modelled: here a string schema takes strings only. *)
Fixpoint zod_accepts (extra : bool) (t : ZodType) (v : json) : bool :=
  match t with
  | ZString min _ =>
      match v with
      | JStr s => match min with
                  | Some n => (n <=? String.length s)%nat
                  | None => true
                  end
      | _ => false
      end
  | ZObject shape =>
      match v with
      | JObj fields =>
          forallb (fun kt => match assoc (fst kt) fields with
                             | Some v' => zod_accepts extra (snd kt) v'
                             | None => false
                             end) shape
          && (extra || keys_known shape fields)
      | _ => false
      end
  end.

(* ================================================================== *)
(** ** The part of Mustache the templates use

    Modelled from the spec: the template engine is the framework's
    [PromptTemplate], which renders with Mustache and with escaping off.
    Three kinds of tag occur in this repository's templates: a variable
    [{{name}}], a section opening [{{#name}}] and its closing [{{/name}}].
    A template that uses any other sigil, or a dotted name, does not parse
    here. *)
Module Mustache.

Inductive tag : Type :=
| TagText (s : string)
| TagName (n : string)
| TagOpen (n : string)
| TagClose (n : string).

#[local] Unset Elimination Schemes.
Inductive token : Type :=
| Text (s : string)
| Name (n : string)
| Sect (n : string) (body : list token).
#[local] Set Elimination Schemes.

Definition flush (acc : list ascii) : string :=
  string_of_list_ascii (rev acc).

Definition plain_name (n : string) : bool :=
  forallb (fun c => negb (Ascii.eqb c "."%char || Ascii.eqb c " "%char))
          (list_ascii_of_string n)
  && negb (n =? "").

Definition classify (content : string) : option tag :=
  match content with
  | String "#"%char n => if plain_name n then Some (TagOpen n) else None
  | String "/"%char n => if plain_name n then Some (TagClose n) else None
  | String "^"%char _ | String "!"%char _ | String ">"%char _
  | String "&"%char _ | String "{"%char _ | String "="%char _ => None
  | n => if plain_name n then Some (TagName n) else None
  end.

Definition text_tag (acc : list ascii) (rest : list tag) : list tag :=
  match acc with
  | [] => rest
  | _ => TagText (flush acc) :: rest
  end.

(** One pass over the characters; [in_tag] tells whether the scanner is
    between [{{] and [}}], [acc] holds the characters read since the last
    delimiter, most recent first. *)
Fixpoint scan (in_tag : bool) (acc : list ascii) (s : string)
  : option (list tag) :=
  match s with
  | EmptyString => if in_tag then None else Some (text_tag acc [])
  | String c rest =>
      if in_tag then
        match c, rest with
        | "}"%char, String "}"%char rest' =>
            match classify (flush acc), scan false [] rest' with
            | Some t, Some ts => Some (t :: ts)
            | _, _ => None
            end
        | _, _ => scan true (c :: acc) rest
        end
      else
        match c, rest with
        | "{"%char, String "{"%char rest' =>
            match scan true [] rest' with
            | Some ts => Some (text_tag acc ts)
            | None => None
            end
        | _, _ => scan false (c :: acc) rest
        end
  end.

(** Sections are matched with a stack of the enclosing, still open
    sections; [cur] is the body read so far, most recent first. *)
Fixpoint nest (tags : list tag) (cur : list token)
    (stack : list (string * list token)) : option (list token) :=
  match tags with
  | [] => match stack with
          | [] => Some (rev cur)
          | _ :: _ => None
          end
  | TagText s :: rest => nest rest (Text s :: cur) stack
  | TagName n :: rest => nest rest (Name n :: cur) stack
  | TagOpen n :: rest => nest rest [] ((n, cur) :: stack)
  | TagClose n :: rest =>
      match stack with
      | (m, outer) :: stack' =>
          if n =? m then nest rest (Sect n (rev cur) :: outer) stack'
          else None
      | [] => None
      end
  end.

Definition parse (template : string) : option (list token) :=
  match scan false [] template with
  | Some tags => nest tags [] []
  | None => None
  end.

(** A name is looked up in the innermost object of the context that has
    it. *)
Fixpoint lookup (n : string) (ctx : list json) : option json :=
  match ctx with
  | [] => None
  | v :: outer =>
      match js_get n v with
      | Some x => Some x
      | None => lookup n outer
      end
  end.

Fixpoint render_token (t : token) (ctx : list json) {struct t} : string :=
  match t with
  | Text s => s
  | Name n =>
      match lookup n ctx with
      | None | Some JNull => ""
      | Some v => js_to_string v
      end
  | Sect n body =>
      let render_body c := joined (map (fun t' => render_token t' c) body) in
      match lookup n ctx with
      | None => ""
      | Some v =>
          if js_truthy v then
            match v with
            | JArr items =>
                joined (map (fun item => render_body (item :: ctx)) items)
            | JBool _ => render_body ctx
            | _ => render_body (v :: ctx)
            end
          else ""
      end
  end.

Definition render_tokens (ts : list token) (ctx : list json) : string :=
  joined (map (fun t => render_token t ctx) ts).

Definition render (template : string) (view : json) : option string :=
  match parse template with
  | Some ts => Some (render_tokens ts [view])
  | None => None
  end.

End Mustache.

(* ================================================================== *)
(** ** Prompt templates *)

(** The schema a [PromptTemplate] is given: a zod schema, against which the
    input of [render] is validated, or a plain object, which constrains
    nothing. *)
Inductive TemplateSchema : Type :=
| SchemaZod (t : ZodType)
| SchemaPlain (shape : json).

Inductive RenderError : Type :=
| InvalidInput
| MalformedTemplate.

Module PromptTemplate.

Record t : Type := {
  schema : TemplateSchema;
  template : string
}.

(** Modelled from the spec: [render] of the framework validates the input
    against the template's schema and then substitutes it into the
    template verbatim. *)
Definition render (extra : bool) (t : t) (input : json)
  : RenderError + string :=
  let valid := match schema t with
               | SchemaZod z => zod_accepts extra z input
               | SchemaPlain _ => true
               end in
  if valid then
    match Mustache.render (template t) input with
    | Some out => inr out
    | None => inl MalformedTemplate
    end
  else inl InvalidInput.

End PromptTemplate.

(* ================================================================== *)
(** ** Messages *)

Module Role.
Definition SYSTEM : string := "system".
Definition USER : string := "user".
Definition ASSISTANT : string := "assistant".
End Role.

Record BaseMessage : Type := {
  role : string;
  text : string
}.

Definition BaseMessage_of (r : string) (t : string) : BaseMessage :=
  {| role := r; text := t |}.

(* ================================================================== *)
(** ** What a [throw] carries *)

(** [RetriesExhausted]: the driver got no acceptable response within its
    bound, after that many requests.  [PromptFailure]: a prompt template
    refused its input.  [IllTyped]: a value is not what the TypeScript
    types declare.  [Other]: anything else the framework or the runtime
    raises. *)
Inductive Thrown : Type :=
| RetriesExhausted (requests : nat)
| PromptFailure (e : RenderError)
| IllTyped
| Other (what : string).

(* ================================================================== *)
(** ** The framework's interfaces the agent is written against *)

(** What of the framework a run depends on and the source does not fix:
    whether validation tolerates properties outside a schema, the driver's
    bound when the caller gives none, the text of a schema as put into the
    system prompt, and the text [FrameworkError.ensure(error).dump()]
    gives for a thrown value. *)
Record Framework : Type := {
  extra_properties : bool;
  defaultMaxRetries : nat;
  schemaToString : ZodType -> string;
  ensure_dump : Thrown -> string
}.

(** Memory: [messages] and [add(message)].  [add] gives the memory it
    leaves and, where it throws, what it throws. *)
Class BaseMemory (M : Type) : Type := {
  messages : M -> list BaseMessage;
  add : M -> BaseMessage -> (Thrown + unit) * M
}.

(** Modelled from the spec: a memory without a bound stores every turn it
    is given, in the order given, and its [add] does not throw. *)
Record UnconstrainedMemory : Type := { stored : list BaseMessage }.

#[export] Instance UnconstrainedMemory_BaseMemory : BaseMemory UnconstrainedMemory := {|
  messages := stored;
  add := fun m message => (inr tt, {| stored := stored m ++ [message] |})
|}.

Record GenerateOptions : Type := { maxRetries : option nat }.

Record DriverResponse : Type := { parsed : json }.

(** A structured-output driver: schema, conversation, options; a response
    or a throw. *)
Record Driver : Type := {
  generate : ZodType -> list BaseMessage -> GenerateOptions
             -> Thrown + DriverResponse
}.

(** A chat model: the conversation and the number of the request; the
    reply read as JSON, [None] when the reply is not JSON. *)
Record ChatLLM : Type := {
  chat : list BaseMessage -> nat -> Thrown + option json
}.

(** The hosted model behind the chat model: for a prompt and the number of
    the request, the text it generates read as JSON ([None] when the text
    is not JSON), or what the call throws, a network failure for one. *)
Record WatsonXLLM : Type := {
  modelId : string;
  decoding_method : string;
  max_new_tokens : nat;
  complete : string -> nat -> Thrown + option json
}.

Definition WatsonXChatLLM (llm : WatsonXLLM)
    (messagesToPrompt : list BaseMessage -> RenderError + string) : ChatLLM := {|
  chat := fun conversation request =>
    match messagesToPrompt conversation with
    | inr prompt => complete llm prompt request
    | inl e => inl (PromptFailure e)
    end
|}.

(** Modelled from the spec: the driver that forces the model's output into
    a schema.  It puts the rendered system prompt before the conversation,
    asks the model, and accepts the first reply that is JSON and that the
    schema accepts; a reply that is not is answered by another request,
    while the bound allows.  A throw of the model call itself is passed
    on.  The second component counts the requests made.  What the driver
    tells the model between two requests is not modelled; the model is
    told the number of the request instead. *)
Module JsonDriver.

Record t : Type := {
  framework : Framework;
  systemTemplate : PromptTemplate.t;
  llm : ChatLLM
}.

Definition fromTemplate (fw : Framework) (template : PromptTemplate.t)
    (llm : ChatLLM) : t :=
  {| framework := fw; systemTemplate := template; llm := llm |}.

Definition acceptable (accepts : json -> bool) (reply : option json)
  : option json :=
  match reply with
  | Some v => if accepts v then Some v else None
  | None => None
  end.

Fixpoint attempt (ask : nat -> Thrown + option json) (accepts : json -> bool)
    (request : nat) (retries : nat) : (Thrown + DriverResponse) * nat :=
  match ask request with
  | inl e => (inl e, 1)
  | inr reply =>
      match acceptable accepts reply with
      | Some v => (inr {| parsed := v |}, 1)
      | None =>
          match retries with
          | 0 => (inl (RetriesExhausted (S request)), 1)
          | S retries' =>
              let '(r, n) := attempt ask accepts (S request) retries' in
              (r, S n)
          end
      end
  end.

Definition bound (d : t) (options : GenerateOptions) : nat :=
  match maxRetries options with
  | Some n => n
  | None => defaultMaxRetries (framework d)
  end.

Definition generate_counted (d : t) (schema : ZodType)
    (input : list BaseMessage) (options : GenerateOptions)
  : (Thrown + DriverResponse) * nat :=
  let fw := framework d in
  match PromptTemplate.render (extra_properties fw) (systemTemplate d)
               (JObj [("schema", JStr (schemaToString fw schema))]) with
  | inl e => (inl (PromptFailure e), 0)
  | inr system =>
      attempt (chat (llm d) (BaseMessage_of Role.SYSTEM system :: input))
              (zod_accepts (extra_properties fw) schema)
              0 (bound d options)
  end.

Definition driver (d : t) : Driver :=
  {| generate := fun schema input options =>
                   fst (generate_counted d schema input options) |}.

End JsonDriver.

(* ================================================================== *)
(** ** What a run takes and gives *)

Module RunInput.
Record t : Type := { message : BaseMessage }.
End RunInput.

Module RunOutput.
Record t : Type := { message : BaseMessage; state : json }.
End RunOutput.

Module RunOptions.
Record t : Type := { maxRetries : option nat }.
End RunOptions.

(** [options?.maxRetries] *)
Definition optional_maxRetries (options : option RunOptions.t) : option nat :=
  match options with
  | Some o => RunOptions.maxRetries o
  | None => None
  end.

(* ================================================================== *)
(** ** The agent *)

Module CustomGermanAgent.

Definition systemPrompt : PromptTemplate.t := {|
  PromptTemplate.schema := SchemaZod (ZObject [("schema", ZString (Some 1) None)]);
  PromptTemplate.template := "## System Instructions

You are a knowledgeable and friendly AI assistant named Thomas.
Your role is to help users by answering their questions, providing information, and offering guidance to the best of your abilities. When responding, use a warm and professional tone, and break down complex topics into easy-to-understand explanations. " ++ nl ++ "If you are unsure about an answer, it's okay to say you don't know rather than guessing.
You must understand all languages but you must answer always in proper german language.
If there are terms that are technical topics in English and they are commonly known in English, don't translate the keywords.

```
{{schema}}
```

IMPORTANT: Every answer must be a parsable JSON string without additional output.
"
|}.

(** The template up to the placeholder: the instructions and the opening
    code fence. *)
Definition systemPrompt_before : string :=
  "## System Instructions

You are a knowledgeable and friendly AI assistant named Thomas.
Your role is to help users by answering their questions, providing information, and offering guidance to the best of your abilities. When responding, use a warm and professional tone, and break down complex topics into easy-to-understand explanations. " ++ nl ++ "If you are unsure about an answer, it's okay to say you don't know rather than guessing.
You must understand all languages but you must answer always in proper german language.
If there are terms that are technical topics in English and they are commonly known in English, don't translate the keywords.

```" ++ nl.

(** The template after the placeholder: the closing code fence and the
    last instruction. *)
Definition systemPrompt_after : string :=
  nl ++ "```" ++ nl ++ nl ++
  "IMPORTANT: Every answer must be a parsable JSON string without additional output." ++ nl.

(** The response schema [_run] hands to the driver. *)
Definition response_schema : ZodType :=
  ZObject
    [("thought",
      ZString None
        (Some "Describe your thought process before coming with a final answer"));
     ("final_answer",
      ZString None
        (Some "Here you should provide concise answer to the original question."))].

(** [_run], with [this.driver] and [this.memory] as arguments: the pair of
    what the call returns or throws and the memory it leaves.  A throw of
    the driver or of [memory.add] is passed on.  The abort signal passed
    along with the options is left out.  TypeScript declares the parsed
    state as two strings; where a driver hands back a value without a
    string [final_answer] the model stops with [IllTyped] rather than
    build a message whose text is no string. *)
Definition _run {M : Type} `{BaseMemory M} (driver : Driver) (memory : M)
    (input : RunInput.t) (options : option RunOptions.t)
  : (Thrown + RunOutput.t) * M :=
  match generate driver response_schema
                 (messages memory ++ [RunInput.message input])
                 {| maxRetries := optional_maxRetries options |} with
  | inl error => (inl error, memory)
  | inr response =>
      match js_get_string "final_answer" (parsed response) with
      | Some final_answer =>
          let result := BaseMessage_of Role.ASSISTANT final_answer in
          match add memory result with
          | (inr _, memory') =>
              (inr {| RunOutput.message := result;
                      RunOutput.state := parsed response |},
               memory')
          | (inl error, memory') => (inl error, memory')
          end
      | None => (inl IllTyped, memory)
      end
  end.

End CustomGermanAgent.

(* ================================================================== *)
(** ** The chat template and [messagesToPrompt] *)

Definition template : PromptTemplate.t := {|
  PromptTemplate.schema :=
    SchemaPlain
      (JObj [("messages",
              JObj [("system", JStr ""); ("user", JStr "");
                    ("assistant", JStr "")])]);
  PromptTemplate.template :=
    "{{#messages}}{{#system}}<|begin_of_text|><|start_header_id|>system<|end_header_id|>" ++ nl
    ++ "  " ++ nl
    ++ "  {{system}}<|eot_id|>{{/system}}{{#user}}<|start_header_id|>user<|end_header_id|>" ++ nl
    ++ "  " ++ nl
    ++ "  {{user}}<|eot_id|>{{/user}}{{#assistant}}<|start_header_id|>assistant<|end_header_id|>" ++ nl
    ++ "  " ++ nl
    ++ "  {{assistant}}<|eot_id|>{{/assistant}}{{/messages}}<|start_header_id|>assistant<|end_header_id|>" ++ nl
    ++ "  " ++ nl
    ++ "  "
|}.

(** The record one message is mapped to. *)
Definition message_view (message : BaseMessage) : json :=
  JObj [("system",
         if role message =? "system" then JArr [JStr (text message)] else JArr []);
        ("user",
         if role message =? "user" then JArr [JStr (text message)] else JArr []);
        ("assistant",
         if role message =? "assistant" then JArr [JStr (text message)] else JArr [])].

Definition messagesToPrompt (extra : bool) (messages : list BaseMessage)
  : RenderError + string :=
  PromptTemplate.render extra template
    (JObj [("messages", JArr (map message_view messages))]).

(* ================================================================== *)
(** ** Scripts: completions and traces

    A statement returns, throws, or ends the process; while it runs it
    makes calls an observer of the process can see.  A script is the pair
    of its completion and the calls it made, in order. *)

Inductive Event : Type :=
| ConsoleInfo (line : string)
| ConsoleError (line : string)
| LoggerError (line : string)
| ReaderWrite (who : string) (what : string)
| AgentRun
| ModelRequest
| ProcessExit (code : Z).

Inductive completion (A : Type) : Type :=
| Returned (a : A)
| Threw (e : Thrown)
| Exited (code : Z).
Arguments Returned {A} a.
Arguments Threw {A} e.
Arguments Exited {A} code.

Definition Script (A : Type) : Type := completion A * list Event.

Definition ret {A : Type} (a : A) : Script A := (Returned a, []).

Definition throw {A : Type} (e : Thrown) : Script A := (Threw e, []).

Definition call (ev : Event) : Script unit := (Returned tt, [ev]).

Definition bind {A B : Type} (m : Script A) (k : A -> Script B) : Script B :=
  match m with
  | (Returned a, t) => let '(c, t') := k a in (c, (t ++ t')%list)
  | (Threw e, t) => (Threw e, t)
  | (Exited code, t) => (Exited code, t)
  end.

Notation "x <- m ;; k" := (bind m (fun x => k))
  (at level 61, m at next level, right associativity).
Notation "m ;; k" := (bind m (fun _ => k))
  (at level 61, right associativity).

(** [try { body } catch (error) { handler }] *)
Definition try_catch {A : Type} (body : Script A)
    (handler : Thrown -> Script A) : Script A :=
  match body with
  | (Threw e, t) => let '(c, t') := handler e in (c, (t ++ t')%list)
  | done => done
  end.

(** [try { body } finally { final }]: the final block runs however the
    body completes, unless the process has ended, and its own throw or
    exit replaces the body's completion. *)
Definition try_finally {A : Type} (body : Script A) (final : Script unit)
  : Script A :=
  match body with
  | (Exited code, t) => (Exited code, t)
  | (c, t) =>
      match final with
      | (Returned _, t') => (c, (t ++ t')%list)
      | (Threw e, t') => (Threw e, (t ++ t')%list)
      | (Exited code, t') => (Exited code, (t ++ t')%list)
      end
  end.

(** [process.exit(code)] *)
Definition process_exit {A : Type} (code : Z) : Script A :=
  (Exited code, [ProcessExit code]).

Definition lift {A : Type} (r : Thrown + A) : Script A :=
  match r with
  | inr a => ret a
  | inl e => throw e
  end.

(** The exit code of the process: the code given to [process.exit], 0 when
    the module runs to its end, and the runtime's 1 when an exception
    leaves the module uncaught. *)
Definition exit_code {A : Type} (s : Script A) : Z :=
  match fst s with
  | Returned _ => 0
  | Threw _ => 1
  | Exited code => code
  end.

Definition trace {A : Type} (s : Script A) : list Event := snd s.

Definition is_AgentRun (ev : Event) : bool :=
  match ev with AgentRun => true | _ => false end.

Definition is_ModelRequest (ev : Event) : bool :=
  match ev with ModelRequest => true | _ => false end.

Definition is_LoggerError (ev : Event) : bool :=
  match ev with LoggerError _ => true | _ => false end.

Definition is_ConsoleError (ev : Event) : bool :=
  match ev with ConsoleError _ => true | _ => false end.

Definition count (p : Event -> bool) (t : list Event) : nat :=
  List.length (filter p t).

(* ================================================================== *)
(** ** The world of one process invocation

    Everything outside the two scripts that decides how a run of them
    goes. *)

(** What the listener on every event is handed for an event of the chat
    model, already as the console prints it. *)
Record LLMEventData : Type := {
  data_input : string;
  data_finalResult : string;
  data_printed : string
}.

(** One call by the framework of a callback registered in [observe]. *)
Inductive Delivery : Type :=
| OnStart
| OnError (error : Thrown)
| OnRetry
| OnUpdate (key : string) (value : string)
| OnAny (creator_is_chatLLM : bool) (name : string) (data : LLMEventData).

Record BeeExecution : Type := {
  maxIterations : nat;
  maxRetriesPerStep : nat;
  totalMaxRetries : nat
}.

(** [setup_fault]: what a statement before the [try] throws, when one
    does.  [hosted_model]: the reply of the hosted model to a prompt, per
    request, or what the call throws.  [deliveries]: the callbacks the framework calls during the
    run of script 1.  [getPrompt]: the helper of script 2.  [bee_run]: the
    stock agent, its answer or throw and the number of its model
    requests. *)
Record World : Type := {
  framework : Framework;
  setup_fault : option Thrown;
  hosted_model : string -> nat -> Thrown + option json;
  deliveries : list Delivery;
  getPrompt : string -> Thrown + string;
  bee_run : string -> BeeExecution -> (Thrown + string) * nat
}.

Definition setup (w : World) : Script unit :=
  match setup_fault w with
  | Some e => throw e
  | None => ret tt
  end.

(* ================================================================== *)
(** ** Script 1: the custom agent *)

Definition llm_lama (w : World) : WatsonXLLM := {|
  modelId := "meta-llama/llama-3-70b-instruct";
  decoding_method := "greedy";
  max_new_tokens := 500;
  complete := hosted_model w
|}.

Definition chatLLM (w : World) : ChatLLM :=
  WatsonXChatLLM (llm_lama w)
                 (messagesToPrompt (extra_properties (framework w))).

(** The driver the constructor of the agent builds. *)
Definition customAgent_driver (w : World) : JsonDriver.t :=
  JsonDriver.fromTemplate (framework w) CustomGermanAgent.systemPrompt
                          (chatLLM w).

(** The callbacks registered in [observe]. *)
Definition observer (w : World) (d : Delivery) : list Event :=
  match d with
  | OnStart => [ReaderWrite "Agent 🤖 : " "starting new iteration"]
  | OnError error =>
      [ReaderWrite "Agent 🤖 : " (ensure_dump (framework w) error)]
  | OnRetry => [ReaderWrite "Agent 🤖 : " "retrying the action..."]
  | OnUpdate key value => [ReaderWrite ("Agent (" ++ key ++ ") 🤖 : ") value]
  | OnAny creator_is_chatLLM name data =>
      if creator_is_chatLLM then
        if name =? "start" then
          [ConsoleInfo "LLM Input"; ConsoleInfo (data_input data)]
        else if name =? "success" then
          [ConsoleInfo "LLM Output"; ConsoleInfo (data_finalResult data)]
        else if name =? "error" then
          [ConsoleError (data_printed data)]
        else []
      else []
  end.

(** [customAgent.run({ message }).observe(...)]: the agent starts from an
    empty unconstrained memory and is run without options; [run] of the
    base class is taken to return or throw what [_run] does.  The requests
    to the model and the calls of the callbacks are listed after the call
    itself; how the two interleave is the framework's. *)
Definition customAgent_run (w : World) (input : RunInput.t)
  : Script RunOutput.t :=
  let memory := {| stored := [] |} in
  let d := customAgent_driver w in
  let requests :=
    snd (JsonDriver.generate_counted d CustomGermanAgent.response_schema
           (messages memory ++ [RunInput.message input])
           {| maxRetries := optional_maxRetries None |}) in
  (Returned tt,
   (AgentRun :: repeat ModelRequest requests
             ++ flat_map (observer w) (deliveries w))%list) ;;
  lift (fst (CustomGermanAgent._run (JsonDriver.driver d) memory input None)).

Definition script1 (w : World) : Script unit :=
  setup w ;;
  try_finally
    (try_catch
       (let message :=
          BaseMessage_of Role.USER "What is your name and why is the sky blue?" in
        call (ConsoleInfo ("Message:" ++ nl ++ text message ++ nl)) ;;
        response <- customAgent_run w {| RunInput.message := message |} ;;
        call (ReaderWrite "Agent 🤖 : " (text (RunOutput.message response))))
       (fun error => call (LoggerError (ensure_dump (framework w) error))))
    (process_exit 0).

(* ================================================================== *)
(** ** Script 2: the stock agent with tools *)

Definition script2 (w : World) : Script unit :=
  setup w ;;
  try_catch
    (prompt <- lift (getPrompt w "What is the current weather in Las Vegas?") ;;
     call (ConsoleInfo ("User 👤 : " ++ prompt)) ;;
     response <-
       (let '(result, requests) :=
          bee_run w prompt {| maxIterations := 8;
                              maxRetriesPerStep := 3;
                              totalMaxRetries := 10 |} in
        (Returned tt, AgentRun :: repeat ModelRequest requests) ;;
        lift result) ;;
     call (ConsoleInfo ("Agent 🤖 : " ++ response)))
    (fun error => call (ConsoleError (ensure_dump (framework w) error))).

(* ================================================================== *)
(** ** Vocabulary of the statements *)

(** The delimiters of one segment of the chat prompt. *)
Definition header (r : string) : string :=
  "<|start_header_id|>" ++ r ++ "<|end_header_id|>" ++ nl ++ "  " ++ nl ++ "  ".

Definition chat_role (r : string) : bool :=
  (r =? "system") || (r =? "user") || (r =? "assistant").

(** What a message of one of the three roles contributes to the prompt. *)
Definition segment (m : BaseMessage) : string :=
  (if role m =? "system" then "<|begin_of_text|>" else "")
  ++ header (role m) ++ text m ++ "<|eot_id|>".

Definition contribution (m : BaseMessage) : string :=
  if chat_role (role m) then segment m else "".

Definition role_section (r : string) (opening : string) : Mustache.token :=
  Mustache.Sect r
    [Mustache.Text opening; Mustache.Name r; Mustache.Text "<|eot_id|>"].

(** The body of the [messages] section of the chat template, parsed. *)
Definition message_body : list Mustache.token :=
  [role_section "system" ("<|begin_of_text|>" ++ header "system");
   role_section "user" (header "user");
   role_section "assistant" (header "assistant")].

(** The three lists of the record a message is mapped to. *)
Definition lists_of (m : BaseMessage) : option (json * json * json) :=
  match js_get "system" (message_view m), js_get "user" (message_view m),
        js_get "assistant" (message_view m) with
  | Some s, Some u, Some a => Some (s, u, a)
  | _, _, _ => None
  end.

Definition has_string_fields (v : json) : Prop :=
  exists thought final_answer,
    js_get "thought" v = Some (JStr thought)
    /\ js_get "final_answer" v = Some (JStr final_answer).

(** The message script 1 sends, and what its run comes to. *)
Definition first_question : BaseMessage :=
  BaseMessage_of Role.USER "What is your name and why is the sky blue?".

Definition customAgent_outcome (w : World) : Thrown + RunOutput.t :=
  fst (CustomGermanAgent._run (JsonDriver.driver (customAgent_driver w))
         {| stored := [] |} {| RunInput.message := first_question |} None).

Definition customAgent_requests (w : World) : nat :=
  snd (JsonDriver.generate_counted (customAgent_driver w)
         CustomGermanAgent.response_schema [first_question]
         {| maxRetries := None |}).

Definition run_events (w : World) : list Event :=
  (AgentRun :: repeat ModelRequest (customAgent_requests w)
            ++ flat_map (observer w) (deliveries w))%list.

Definition greeting : Event :=
  ConsoleInfo ("Message:" ++ nl ++ text first_question ++ nl).

Definition weather_question : string :=
  "What is the current weather in Las Vegas?".

Definition bee_execution : BeeExecution :=
  {| maxIterations := 8; maxRetriesPerStep := 3; totalMaxRetries := 10 |}.

(** Calls that only print. *)
Definition output_only (ev : Event) : bool :=
  match ev with
  | ConsoleInfo _ | ConsoleError _ | ReaderWrite _ _ => true
  | _ => false
  end.

(** The codes given to [process.exit] in a trace. *)
Definition exit_codes (t : list Event) : list Z :=
  flat_map (fun ev => match ev with ProcessExit code => [code] | _ => [] end) t.

(** A reply that came back and is turned down: it is not JSON, or the
    schema does not accept it. *)
Definition turned_down (accepts : json -> bool) (r : Thrown + option json)
  : bool :=
  match r with
  | inl _ => false
  | inr reply =>
      match JsonDriver.acceptable accepts reply with
      | Some _ => false
      | None => true
      end
  end.

(* ================================================================== *)
(** ** Sample worlds *)

Definition sample_framework : Framework := {|
  extra_properties := false;
  defaultMaxRetries := 3;
  schemaToString := fun _ => "{thought, final_answer}";
  ensure_dump := fun e =>
    match e with
    | RetriesExhausted _ => "no structured response"
    | PromptFailure _ => "template error"
    | IllTyped => "type error"
    | Other what => what
    end
|}.

Definition sample_answer : json :=
  JObj [("thought", JStr "Der Nutzer fragt nach meinem Namen.");
        ("final_answer", JStr "Ich bin Thomas.")].

Definition sample_output : RunOutput.t :=
  {| RunOutput.message := BaseMessage_of Role.ASSISTANT "Ich bin Thomas.";
     RunOutput.state := sample_answer |}.

Definition empty_answer : json :=
  JObj [("thought", JStr ""); ("final_answer", JStr "")].

Definition thought_only : json := JObj [("thought", JStr "Hm.")].

Definition answer_only : json := JObj [("final_answer", JStr "Hm.")].

Definition sample_world (fault : option Thrown)
    (model : string -> nat -> Thrown + option json) : World := {|
  framework := sample_framework;
  setup_fault := fault;
  hosted_model := model;
  deliveries := [OnStart];
  getPrompt := fun question => inr question;
  bee_run := fun _ _ => (inl (Other "tool failed"), 2)
|}.

(** The model answers as asked. *)
Definition world_answering : World :=
  sample_world None (fun _ _ => inr (Some sample_answer)).

(** The model answers with two empty strings. *)
Definition world_terse : World :=
  sample_world None (fun _ _ => inr (Some empty_answer)).

(** The first reply lacks [final_answer], the second is as asked. *)
Definition world_second_try : World :=
  sample_world None (fun _ request =>
                       match request with
                       | 0 => inr (Some thought_only)
                       | _ => inr (Some sample_answer)
                       end).

(** No reply of the model is JSON. *)
Definition world_mute : World := sample_world None (fun _ _ => inr None).

(** The hosted model cannot be reached. *)
Definition world_offline : World :=
  sample_world None (fun _ _ => inl (Other "network unreachable")).

(** A constructor before the [try] throws. *)
Definition world_unconfigured : World :=
  sample_world (Some (Other "no API key"))
               (fun _ _ => inr (Some sample_answer)).



(* ================================================================== *)
(** ** The agent as an object: constructor and snapshots

    The fields of an agent and of a snapshot are properties of JavaScript
    objects.  A memory is held by reference: the value of the property is
    the place of the memory in a store, and a run changes the store. *)

(** The emitter of the agent, [Emitter.root.child] with the namespace
    given; its creator, the agent itself, is left out. *)
Record Emitter : Type := { namespace : list string }.

Inductive Value : Type :=
| VUndefined
| VDriver (d : JsonDriver.t)
| VEmitter (e : Emitter)
| VMemory (ref : nat)
| VPlain (v : json).

(** An object: its own properties, in the order they were first set. *)
Definition Obj : Type := list (string * Value).

(** [o.k]: [undefined] where the object has no such property. *)
Definition obj_get (k : string) (o : Obj) : Value :=
  match assoc k o with
  | Some v => v
  | None => VUndefined
  end.

(** [o.k = v]: an existing property keeps its place, a new one comes
    last. *)
Fixpoint obj_set (k : string) (v : Value) (o : Obj) : Obj :=
  match o with
  | [] => [(k, v)]
  | (k', v') :: rest =>
      if k' =? k then (k, v) :: rest else (k', v') :: obj_set k v rest
  end.

(** [Object.assign(target, source)]; the spread [{...source}] is
    [Object_assign [] source]. *)
Definition Object_assign (target source : Obj) : Obj :=
  fold_left (fun o kv => obj_set (fst kv) (snd kv) o) source target.

Module AgentInput.
Record t : Type := { llm : ChatLLM; memory : nat }.
End AgentInput.

(** The constructor: [base] is the object as [super()] leaves it; the
    field initialiser sets the emitter, the body sets the driver and the
    memory. *)
Definition new_CustomGermanAgent (fw : Framework) (base : Obj)
    (input : AgentInput.t) : Obj :=
  obj_set "memory" (VMemory (AgentInput.memory input))
    (obj_set "driver"
       (VDriver (JsonDriver.fromTemplate fw CustomGermanAgent.systemPrompt
                   (AgentInput.llm input)))
       (obj_set "emitter" (VEmitter {| namespace := ["agent"; "custom"] |})
          base)).

(** [createSnapshot]: [inherited] is what [super.createSnapshot()]
    returns. *)
Definition createSnapshot (inherited this : Obj) : Obj :=
  obj_set "memory" (obj_get "memory" this)
    (obj_set "emitter" (obj_get "emitter" this)
       (obj_set "driver" (obj_get "driver" this)
          (Object_assign [] inherited))).

Definition loadSnapshot (this snapshot : Obj) : Obj :=
  Object_assign this snapshot.

(** The memories that exist, by reference. *)
Definition Store : Type := nat -> UnconstrainedMemory.

Definition store_set (s : Store) (ref : nat) (m : UnconstrainedMemory)
  : Store :=
  fun ref' => if (ref' =? ref)%nat then m else s ref'.

(** [_run] as a method: [this.driver] and [this.memory] are read from the
    object, and the memory the run leaves is written back to its place.
    An object whose two properties are not a driver and a memory is
    outside the declared types. *)
Definition run_object (store : Store) (this : Obj) (input : RunInput.t)
    (options : option RunOptions.t) : (Thrown + RunOutput.t) * Store :=
  match obj_get "driver" this, obj_get "memory" this with
  | VDriver d, VMemory ref =>
      let '(result, memory') :=
        CustomGermanAgent._run (JsonDriver.driver d) (store ref) input
                               options in
      (result, store_set store ref memory')
  | _, _ => (inl IllTyped, store)
  end.

(** One run after another on the same memory; the driver of each call is
    given with it, as the model behind it answers anew each time. *)
Fixpoint runs {M : Type} `{BaseMemory M} (memory : M)
    (calls : list (Driver * RunInput.t * option RunOptions.t))
  : list (Thrown + RunOutput.t) * M :=
  match calls with
  | [] => ([], memory)
  | (driver, input, options) :: rest =>
      let '(result, memory') :=
        CustomGermanAgent._run driver memory input options in
      let '(results, memory'') := runs memory' rest in
      (result :: results, memory'')
  end.

(** The messages of the runs that succeeded, in order. *)
Fixpoint answers (results : list (Thrown + RunOutput.t)) : list BaseMessage :=
  match results with
  | [] => []
  | inr out :: rest => RunOutput.message out :: answers rest
  | inl _ :: rest => answers rest
  end.

(** The three properties [createSnapshot] writes itself. *)
Definition own_key (k : string) : bool :=
  (k =? "driver") || (k =? "emitter") || (k =? "memory").

(** An event handed to the listener on every event by something other
    than the chat model. *)
Definition from_other_creator (d : Delivery) : bool :=
  match d with
  | OnAny false _ _ => true
  | _ => false
  end.

(** *** More samples *)

(** The helper of script 2 throws. *)
Definition world_no_prompt : World := {|
  framework := sample_framework;
  setup_fault := None;
  hosted_model := fun _ _ => inr None;
  deliveries := [];
  getPrompt := fun _ => inl (Other "no prompt");
  bee_run := fun _ _ => (inr "unused", 0)
|}.

(** The stock agent answers after three requests. *)
Definition world_sunny : World := {|
  framework := sample_framework;
  setup_fault := None;
  hosted_model := fun _ _ => inr None;
  deliveries := [];
  getPrompt := fun question => inr question;
  bee_run := fun _ _ => (inr "Sunny, 31 C.", 3)
|}.

Definition sample_llm : ChatLLM := chatLLM world_answering.

(** An agent as the constructor leaves it, over the memory at place 0,
    where [super()] had left a flag and, oddly, a property [memory]. *)
Definition sample_agent : Obj :=
  new_CustomGermanAgent sample_framework
    [("isRunning", VPlain (JBool false)); ("memory", VPlain JNull)]
    {| AgentInput.llm := sample_llm; AgentInput.memory := 0 |}.

Definition sample_inherited : Obj :=
  [("isRunning", VPlain (JBool false));
   ("emitter", VEmitter {| namespace := ["agent"] |})].

Definition sample_store : Store :=
  fun _ => {| stored := [first_question] |}.

(* ================================================================== *)
(** * Properties *)

(** ** The model at work *)

Example mustache_section_over_a_list :
  Mustache.render "{{#items}}<{{name}}>{{/items}}!"
    (JObj [("items", JArr [JObj [("name", JStr "a")];
                           JObj [("name", JStr "b")]])])
  = Some "<a><b>!".
Proof. reflexivity. Qed.

Example mustache_unclosed_section :
  Mustache.render "{{#items}}x" (JObj []) = None.
Proof. reflexivity. Qed.

Example systemPrompt_refuses_empty_schema :
  PromptTemplate.render false CustomGermanAgent.systemPrompt
    (JObj [("schema", JStr "")])
  = inl InvalidInput.
Proof. reflexivity. Qed.

Example script1_when_the_model_answers :
  script1 world_answering
  = (Exited 0,
     [ConsoleInfo ("Message:" ++ nl
                   ++ "What is your name and why is the sky blue?" ++ nl);
      AgentRun; ModelRequest;
      ReaderWrite "Agent 🤖 : " "starting new iteration";
      ReaderWrite "Agent 🤖 : " "Ich bin Thomas.";
      ProcessExit 0]).
Proof. vm_compute. reflexivity. Qed.

Example script1_when_no_reply_is_json :
  script1 world_mute
  = (Exited 0,
     [ConsoleInfo ("Message:" ++ nl
                   ++ "What is your name and why is the sky blue?" ++ nl);
      AgentRun; ModelRequest; ModelRequest; ModelRequest; ModelRequest;
      ReaderWrite "Agent 🤖 : " "starting new iteration";
      LoggerError "no structured response";
      ProcessExit 0]).
Proof. vm_compute. reflexivity. Qed.

Example script2_when_a_tool_fails :
  script2 world_answering
  = (Returned tt,
     [ConsoleInfo "User 👤 : What is the current weather in Las Vegas?";
      AgentRun; ModelRequest; ModelRequest;
      ConsoleError "tool failed"]).
Proof. vm_compute. reflexivity. Qed.

(** ** Strings and pieces *)

Lemma append_nil_r (s : string) : s ++ "" = s.
Proof. induction s as [|c s IH]; simpl; [reflexivity | now rewrite IH]. Qed.

Lemma append_assoc (a b c : string) : (a ++ b) ++ c = a ++ b ++ c.
Proof. induction a as [|x a IH]; simpl; [reflexivity | now rewrite IH]. Qed.

Lemma joined_cons (s : string) (l : list string) :
  joined (s :: l) = s ++ joined l.
Proof. reflexivity. Qed.

Lemma joined_app (l1 l2 : list string) :
  joined (l1 ++ l2) = joined l1 ++ joined l2.
Proof.
  induction l1 as [|s l1 IH]; [reflexivity|].
  change (joined (s :: l1 ++ l2) = joined (s :: l1) ++ joined l2).
  now rewrite !joined_cons, IH, append_assoc.
Qed.

(** ** The system prompt *)

Lemma parse_systemPrompt :
  Mustache.parse (PromptTemplate.template CustomGermanAgent.systemPrompt)
  = Some [Mustache.Text CustomGermanAgent.systemPrompt_before;
          Mustache.Name "schema";
          Mustache.Text CustomGermanAgent.systemPrompt_after].
Proof. vm_compute. reflexivity. Qed.

Lemma render_one_variable (before after n s : string) (view : json) :
  js_get n view = Some (JStr s) ->
  Mustache.render_tokens
    [Mustache.Text before; Mustache.Name n; Mustache.Text after] [view]
  = before ++ s ++ after.
Proof.
  intros Hget. unfold Mustache.render_tokens. simpl. rewrite Hget. simpl.
  unfold joined. simpl. now rewrite append_nil_r.
Qed.

(** C2.  For every non-empty schema string, rendering the system prompt of
    the agent with that string gives the template with the string in the
    place of the [{{schema}}] placeholder, between the two code fences,
    character for character; the text before and after the placeholder is
    that of the template. *)
Theorem systemPrompt_renders_schema_verbatim (extra : bool) (s : string) :
  s <> "" ->
  PromptTemplate.template CustomGermanAgent.systemPrompt
  = CustomGermanAgent.systemPrompt_before ++ "{{schema}}"
    ++ CustomGermanAgent.systemPrompt_after
  /\ PromptTemplate.render extra CustomGermanAgent.systemPrompt (JObj [("schema", JStr s)])
     = inr (CustomGermanAgent.systemPrompt_before ++ s
            ++ CustomGermanAgent.systemPrompt_after).
Proof.
  intros Hs. split; [reflexivity|].
  unfold PromptTemplate.render.
  replace (match PromptTemplate.schema CustomGermanAgent.systemPrompt with
           | SchemaZod z => zod_accepts extra z (JObj [("schema", JStr s)])
           | SchemaPlain _ => true
           end) with true.
  - unfold Mustache.render. rewrite parse_systemPrompt.
    now rewrite (render_one_variable _ _ "schema" s).
  - destruct s as [|c s]; [contradiction|]. simpl.
    now rewrite orb_true_r.
Qed.

Lemma systemPrompt_renders_schema_verbatim_witness :
  PromptTemplate.render false CustomGermanAgent.systemPrompt
         (JObj [("schema", JStr "{{thought}} & <final_answer>")])
  = inr (CustomGermanAgent.systemPrompt_before
         ++ "{{thought}} & <final_answer>"
         ++ CustomGermanAgent.systemPrompt_after).
Proof.
  apply (systemPrompt_renders_schema_verbatim false
           "{{thought}} & <final_answer>").
  discriminate.
Defined.

(** ** The chat prompt *)

Lemma parse_template :
  Mustache.parse (PromptTemplate.template template)
  = Some [Mustache.Sect "messages" message_body;
          Mustache.Text (header "assistant")].
Proof. vm_compute. reflexivity. Qed.

Lemma render_message (m : BaseMessage) (ctx : list json) :
  Mustache.render_tokens message_body (message_view m :: ctx) = contribution m.
Proof.
  destruct m as [r t]. unfold contribution, segment, chat_role, message_view.
  cbn [role text].
  destruct (String.eqb_spec r "system") as [->|Hs].
  { cbn. now rewrite !append_nil_r. }
  destruct (String.eqb_spec r "user") as [->|Hu].
  { cbn. now rewrite !append_nil_r. }
  destruct (String.eqb_spec r "assistant") as [->|Ha].
  { cbn. now rewrite !append_nil_r. }
  reflexivity.
Qed.

Lemma render_messages (ms : list BaseMessage) (ctx : list json) :
  joined (map (fun item => Mustache.render_tokens message_body (item :: ctx))
              (map message_view ms))
  = joined (map contribution ms).
Proof.
  induction ms as [|m ms IH]; [reflexivity|].
  cbn [map]. rewrite !joined_cons, IH, render_message. reflexivity.
Qed.

Lemma messagesToPrompt_contributions (extra : bool) (ms : list BaseMessage) :
  messagesToPrompt extra ms
  = inr (joined (map contribution ms) ++ header "assistant").
Proof.
  unfold messagesToPrompt, PromptTemplate.render. cbn [PromptTemplate.schema template].
  unfold Mustache.render. rewrite parse_template.
  f_equal.
  unfold Mustache.render_tokens at 1. cbn [map].
  rewrite joined_cons.
  cbn [Mustache.render_token Mustache.lookup js_get assoc String.eqb
       Ascii.eqb Bool.eqb js_truthy].
  change (joined (map (fun item =>
                         Mustache.render_tokens message_body
                           (item :: [JObj [("messages",
                                            JArr (map message_view ms))]]))
                      (map message_view ms))
          ++ joined [header "assistant"]
          = joined (map contribution ms) ++ header "assistant").
  rewrite render_messages. unfold joined at 2. cbn [fold_right].
  now rewrite append_nil_r.
Qed.

(** C3.  For every list of messages whose roles are system, user or
    assistant, the prompt is the segments of the messages in the order of
    the list, each segment being the header of the role, the text and the
    end-of-turn token, with the begin-of-text token before a system
    header, and after them the header of the assistant. *)
Theorem messagesToPrompt_segments_in_order (extra : bool)
    (ms : list BaseMessage) :
  Forall (fun m => chat_role (role m) = true) ms ->
  messagesToPrompt extra ms
  = inr (joined (map segment ms) ++ header "assistant").
Proof.
  intros Hroles. rewrite messagesToPrompt_contributions.
  replace (map contribution ms) with (map segment ms); [reflexivity|].
  induction Hroles as [|m ms Hm _ IH]; [reflexivity|].
  cbn [map]. rewrite IH. unfold contribution. now rewrite Hm.
Qed.

Lemma messagesToPrompt_segments_in_order_witness :
  messagesToPrompt false
    [BaseMessage_of "system" "Antworte auf Deutsch.";
     BaseMessage_of "user" "Hallo";
     BaseMessage_of "assistant" "Guten Tag!";
     BaseMessage_of "user" "Wie ist das Wetter?"]
  = inr ("<|begin_of_text|>" ++ header "system" ++ "Antworte auf Deutsch."
         ++ "<|eot_id|>"
         ++ header "user" ++ "Hallo" ++ "<|eot_id|>"
         ++ header "assistant" ++ "Guten Tag!" ++ "<|eot_id|>"
         ++ header "user" ++ "Wie ist das Wetter?" ++ "<|eot_id|>"
         ++ header "assistant").
Proof.
  rewrite (messagesToPrompt_segments_in_order false).
  - vm_compute. reflexivity.
  - repeat constructor.
Defined.

(** C10.  A message whose role is system, user or assistant is mapped to a
    record in which the list of that role holds the text and the other two
    lists are empty; a message of any other role is mapped to three empty
    lists, and the prompt is the same as without that message. *)
Theorem message_view_one_list_or_none (extra : bool) (m : BaseMessage) :
  (role m = "system" ->
     lists_of m = Some (JArr [JStr (text m)], JArr [], JArr []))
  /\ (role m = "user" ->
     lists_of m = Some (JArr [], JArr [JStr (text m)], JArr []))
  /\ (role m = "assistant" ->
     lists_of m = Some (JArr [], JArr [], JArr [JStr (text m)]))
  /\ (chat_role (role m) = false ->
     lists_of m = Some (JArr [], JArr [], JArr [])
     /\ forall before after,
         messagesToPrompt extra (before ++ m :: after)
         = messagesToPrompt extra (before ++ after)).
Proof.
  destruct m as [r t]. unfold lists_of, message_view. cbn [role text].
  split; [|split; [|split]]; try (intros ->; reflexivity).
  intros Hother. split.
  - unfold chat_role in Hother. rewrite !orb_false_iff in Hother.
    destruct Hother as [[-> ->] ->]. reflexivity.
  - intros before after. rewrite !messagesToPrompt_contributions.
    rewrite !map_app, !joined_app. cbn [map]. rewrite joined_cons.
    unfold contribution at 2. cbn [role]. rewrite Hother. reflexivity.
Qed.

Lemma message_view_one_list_or_none_witness :
  lists_of (BaseMessage_of "user" "Hallo")
  = Some (JArr [], JArr [JStr "Hallo"], JArr [])
  /\ messagesToPrompt false
       ([BaseMessage_of "user" "Hallo"]
          ++ BaseMessage_of "tool" "22 C" :: [BaseMessage_of "user" "Und?"])
     = messagesToPrompt false
         ([BaseMessage_of "user" "Hallo"] ++ [BaseMessage_of "user" "Und?"]).
Proof.
  split.
  - apply (message_view_one_list_or_none false (BaseMessage_of "user" "Hallo")).
    reflexivity.
  - apply (message_view_one_list_or_none false (BaseMessage_of "tool" "22 C")).
    reflexivity.
Defined.

(* ================================================================== *)
(** ** The driver's loop *)

Section Attempt.
Variable ask : nat -> Thrown + option json.
Variable accepts : json -> bool.

Lemma attempt_requests (request retries : nat) :
  1 <= snd (JsonDriver.attempt ask accepts request retries) <= S retries.
Proof.
  revert request. induction retries as [|n IH]; intros request; simpl.
  - destruct (ask request) as [e|reply]; simpl; [lia|].
    destruct (JsonDriver.acceptable accepts reply); simpl; lia.
  - destruct (ask request) as [e|reply]; simpl; [lia|].
    destruct (JsonDriver.acceptable accepts reply); simpl; [lia|].
    specialize (IH (S request)).
    destruct (JsonDriver.attempt ask accepts (S request) n) as [r k].
    simpl in *. lia.
Qed.

Lemma acceptable_accepted (reply : option json) (v : json) :
  JsonDriver.acceptable accepts reply = Some v ->
  reply = Some v /\ accepts v = true.
Proof.
  destruct reply as [u|]; simpl; [|discriminate].
  destruct (accepts u) eqn:Hu; [|discriminate].
  intros [= <-]. split; [reflexivity | assumption].
Qed.

Lemma attempt_accepted (request retries : nat) (response : DriverResponse) :
  fst (JsonDriver.attempt ask accepts request retries) = inr response ->
  accepts (parsed response) = true
  /\ exists i, request <= i <= request + retries
               /\ ask i = inr (Some (parsed response)).
Proof.
  revert request. induction retries as [|n IH]; intros request; simpl.
  - destruct (ask request) as [e|reply] eqn:Hask; simpl; [discriminate|].
    destruct (JsonDriver.acceptable accepts reply) as [v|] eqn:Hacc; simpl;
      [|discriminate].
    intros [= <-]. apply acceptable_accepted in Hacc as [-> Hv]. simpl.
    split; [assumption|]. exists request. split; [lia | assumption].
  - destruct (ask request) as [e|reply] eqn:Hask; simpl; [discriminate|].
    destruct (JsonDriver.acceptable accepts reply) as [v|] eqn:Hacc; simpl.
    + intros [= <-]. apply acceptable_accepted in Hacc as [-> Hv]. simpl.
      split; [assumption|]. exists request. split; [lia | assumption].
    + specialize (IH (S request)).
      destruct (JsonDriver.attempt ask accepts (S request) n) as [r k].
      simpl in *. intros ->. destruct (IH eq_refl) as [Hv [i [Hi Hask']]].
      split; [assumption|]. exists i. split; [lia | assumption].
Qed.

(** A loop that fails either passes on a throw of the model call, or has
    used every request its bound allows. *)
Lemma attempt_failed (request retries : nat) (e : Thrown) :
  fst (JsonDriver.attempt ask accepts request retries) = inl e ->
  (exists i, request <= i <= request + retries /\ ask i = inl e)
  \/ (e = RetriesExhausted (request + S retries)
      /\ snd (JsonDriver.attempt ask accepts request retries) = S retries).
Proof.
  revert request. induction retries as [|n IH]; intros request; simpl.
  - destruct (ask request) as [e'|reply] eqn:Ha; simpl.
    + intros [= <-]. left. exists request. split; [lia | assumption].
    + destruct (JsonDriver.acceptable accepts reply); simpl; [discriminate|].
      intros [= <-]. right. split; [f_equal; lia | reflexivity].
  - destruct (ask request) as [e'|reply] eqn:Ha; simpl.
    + intros [= <-]. left. exists request. split; [lia | assumption].
    + destruct (JsonDriver.acceptable accepts reply); simpl; [discriminate|].
      specialize (IH (S request)).
      destruct (JsonDriver.attempt ask accepts (S request) n) as [r k].
      simpl in *. intros ->.
      destruct (IH eq_refl) as [[i [Hi Hask]]|[-> ->]].
      * left. exists i. split; [lia | assumption].
      * right. split; [f_equal; lia | reflexivity].
Qed.
End Attempt.

Lemma generate_counted_accepted (d : JsonDriver.t) (schema : ZodType)
    (input : list BaseMessage) (options : GenerateOptions)
    (response : DriverResponse) :
  fst (JsonDriver.generate_counted d schema input options) = inr response ->
  zod_accepts (extra_properties (JsonDriver.framework d)) schema
              (parsed response) = true.
Proof.
  unfold JsonDriver.generate_counted.
  destruct (PromptTemplate.render _ _ _) as [e|system]; simpl; [discriminate|].
  intros Hok. now apply attempt_accepted in Hok as [Hv _].
Qed.

Lemma generate_counted_requests (d : JsonDriver.t) (schema : ZodType)
    (input : list BaseMessage) (options : GenerateOptions) :
  snd (JsonDriver.generate_counted d schema input options)
  <= S (JsonDriver.bound d options).
Proof.
  unfold JsonDriver.generate_counted.
  destruct (PromptTemplate.render _ _ _) as [e|system]; simpl; [lia|].
  apply attempt_requests.
Qed.

(* ================================================================== *)
(** ** The response schema *)

Lemma response_schema_accepted (extra : bool) (v : json) :
  zod_accepts extra CustomGermanAgent.response_schema v = true ->
  has_string_fields v.
Proof.
  destruct v as [| | | |items|fields]; simpl; try discriminate.
  destruct (assoc "thought" fields) as [[| | |t| |]|] eqn:Ht; simpl;
    try discriminate.
  destruct (assoc "final_answer" fields) as [[| | |f| |]|] eqn:Hf; simpl;
    try discriminate.
  intros _. exists t, f. split; simpl; assumption.
Qed.

Lemma response_schema_rejects_missing (extra : bool) (v : json) :
  js_get_string "thought" v = None \/ js_get_string "final_answer" v = None ->
  zod_accepts extra CustomGermanAgent.response_schema v = false.
Proof.
  intros Hmissing.
  destruct (zod_accepts extra CustomGermanAgent.response_schema v) eqn:Hv;
    [|reflexivity].
  apply response_schema_accepted in Hv as [t [f [Ht Hf]]].
  unfold js_get_string in Hmissing. rewrite Ht, Hf in Hmissing.
  destruct Hmissing; discriminate.
Qed.

(* ================================================================== *)
(** ** One run of the agent *)

Lemma run_cases {M : Type} `{BaseMemory M} (driver : Driver) (memory : M)
    (input : RunInput.t) (options : option RunOptions.t) (out : RunOutput.t)
    (memory' : M) :
  CustomGermanAgent._run driver memory input options = (inr out, memory') ->
  exists response final_answer,
    generate driver CustomGermanAgent.response_schema
             (messages memory ++ [RunInput.message input])
             {| maxRetries := optional_maxRetries options |} = inr response
    /\ js_get "final_answer" (parsed response) = Some (JStr final_answer)
    /\ out = {| RunOutput.message := BaseMessage_of Role.ASSISTANT final_answer;
                RunOutput.state := parsed response |}
    /\ add memory (BaseMessage_of Role.ASSISTANT final_answer)
       = (inr tt, memory').
Proof.
  unfold CustomGermanAgent._run.
  destruct (generate driver _ _ _) as [e|response]; [discriminate|].
  destruct (js_get_string "final_answer" (parsed response)) as [f|] eqn:Hf;
    [|discriminate].
  destruct (add memory (BaseMessage_of Role.ASSISTANT f))
    as [[e|[]] memory1] eqn:Hadd; [discriminate|].
  intros [= <- <-]. exists response, f.
  split; [reflexivity|]. split; [|split; [reflexivity | exact Hadd]].
  unfold js_get_string in Hf.
  destruct (js_get "final_answer" (parsed response)) as [[| | |s| |]|];
    try discriminate.
  now injection Hf as ->.
Qed.

(** C9.  A run that succeeds returns a message of the assistant role whose
    text is the [final_answer] of the state, and a state that is the
    parsed value of the driver's response. *)
Theorem run_output_shape {M : Type} `{BaseMemory M} (driver : Driver)
    (memory : M) (input : RunInput.t) (options : option RunOptions.t)
    (out : RunOutput.t) (memory' : M) :
  CustomGermanAgent._run driver memory input options = (inr out, memory') ->
  role (RunOutput.message out) = Role.ASSISTANT
  /\ js_get "final_answer" (RunOutput.state out)
     = Some (JStr (text (RunOutput.message out)))
  /\ exists response,
       generate driver CustomGermanAgent.response_schema
                (messages memory ++ [RunInput.message input])
                {| maxRetries := optional_maxRetries options |} = inr response
       /\ RunOutput.state out = parsed response.
Proof.
  intros Hrun. apply run_cases in Hrun as [response [f [Hgen [Hf [-> _]]]]].
  simpl. split; [reflexivity|]. split; [assumption|].
  exists response. split; [assumption | reflexivity].
Qed.

Lemma run_output_shape_witness :
  role (RunOutput.message sample_output) = Role.ASSISTANT
  /\ js_get "final_answer" (RunOutput.state sample_output)
     = Some (JStr (text (RunOutput.message sample_output))).
Proof.
  destruct (run_output_shape
              (JsonDriver.driver (customAgent_driver world_answering))
              {| stored := [] |} {| RunInput.message := first_question |} None
              sample_output {| stored := [RunOutput.message sample_output] |})
    as [Hrole [Htext _]].
  - vm_compute. reflexivity.
  - split; assumption.
Defined.



(* ================================================================== *)
(** ** The agent on the JSON driver *)

Section AttemptByReplies.
Variable ask : nat -> Thrown + option json.
Variable accepts : json -> bool.

(** Where every reply the bound allows comes back and is turned down, the
    loop asks for all of them and then gives up. *)
Lemma attempt_all_turned_down (request retries : nat) :
  (forall i, request <= i <= request + retries ->
             turned_down accepts (ask i) = true) ->
  JsonDriver.attempt ask accepts request retries
  = (inl (RetriesExhausted (request + S retries)), S retries).
Proof.
  revert request. induction retries as [|n IH]; intros request Hall;
    cbn [JsonDriver.attempt];
    pose proof (Hall request ltac:(lia)) as Hfirst;
    unfold turned_down in Hfirst;
    destruct (ask request) as [e|reply]; try discriminate;
    destruct (JsonDriver.acceptable accepts reply); try discriminate.
  - do 2 f_equal. f_equal. lia.
  - rewrite (IH (S request)) by (intros i Hi; apply Hall; lia).
    do 2 f_equal. f_equal. lia.
Qed.

(** A loop that succeeds returns the first reply that is accepted, and
    that reply is among those the bound allows. *)
Lemma attempt_first_accepted (request retries : nat)
    (response : DriverResponse) :
  fst (JsonDriver.attempt ask accepts request retries) = inr response ->
  exists i, request <= i <= request + retries
            /\ ask i = inr (Some (parsed response))
            /\ accepts (parsed response) = true
            /\ forall j, request <= j < i -> turned_down accepts (ask j) = true.
Proof.
  assert (Hnow : forall request reply v,
             ask request = inr reply ->
             JsonDriver.acceptable accepts reply = Some v ->
             request <= request
             /\ ask request = inr (Some v) /\ accepts v = true
             /\ forall j, request <= j < request ->
                          turned_down accepts (ask j) = true).
  { intros r reply v Hask Hacc.
    apply acceptable_accepted in Hacc as [-> Hv].
    repeat split; try assumption; try lia. }
  revert request. induction retries as [|n IH]; intros request;
    cbn [JsonDriver.attempt];
    destruct (ask request) as [e|reply] eqn:Hask; cbn [fst];
    try discriminate;
    destruct (JsonDriver.acceptable accepts reply) as [v|] eqn:Hacc;
    cbn [fst]; try discriminate.
  - intros [= <-]. exists request. cbn [parsed].
    destruct (Hnow request reply v Hask Hacc) as [_ [H1 [H2 H3]]].
    repeat split; try assumption; lia.
  - intros [= <-]. exists request. cbn [parsed].
    destruct (Hnow request reply v Hask Hacc) as [_ [H1 [H2 H3]]].
    repeat split; try assumption; lia.
  - specialize (IH (S request)).
    destruct (JsonDriver.attempt ask accepts (S request) n) as [r k].
    cbn [fst] in *. intros ->.
    destruct (IH eq_refl) as [i [Hi [Hreply [Hv Hbefore]]]].
    exists i. split; [lia|]. split; [assumption|]. split; [assumption|].
    intros j Hj. destruct (Nat.eq_dec j request) as [->|Hne].
    + unfold turned_down. now rewrite Hask, Hacc.
    + apply Hbefore. lia.
Qed.
End AttemptByReplies.

Section CustomAgentWithJsonDriver.
Context {M : Type} `{BaseMemory M}.
Variable fw : Framework.
Variable llm : ChatLLM.
Variable memory : M.
Variable input : RunInput.t.
Variable options : option RunOptions.t.

Let d := JsonDriver.fromTemplate fw CustomGermanAgent.systemPrompt llm.
Let conversation := (messages memory ++ [RunInput.message input])%list.
Let accepts := zod_accepts (extra_properties fw)
                           CustomGermanAgent.response_schema.
Let run := fst (CustomGermanAgent._run (JsonDriver.driver d) memory input
                                       options).

(** The options as [_run] is to hand them to the driver, and the bound
    they stand for. *)
Let passed : GenerateOptions :=
  {| maxRetries := match options with
                   | Some o => RunOptions.maxRetries o
                   | None => None
                   end |}.
Let bound : nat :=
  match options with
  | Some o => match RunOptions.maxRetries o with
              | Some n => n
              | None => defaultMaxRetries fw
              end
  | None => defaultMaxRetries fw
  end.

Lemma bound_passed : JsonDriver.bound d passed = bound.
Proof.
  unfold JsonDriver.bound, passed, bound. cbn [maxRetries].
  destruct options as [[[n|]]|]; reflexivity.
Qed.

Lemma run_with_json_driver :
  match generate (JsonDriver.driver d) CustomGermanAgent.response_schema
                 conversation passed with
  | inl error =>
      CustomGermanAgent._run (JsonDriver.driver d) memory input options
      = (inl error, memory)
  | inr response =>
      accepts (parsed response) = true
      /\ exists final_answer,
        js_get "final_answer" (parsed response) = Some (JStr final_answer)
        /\ CustomGermanAgent._run (JsonDriver.driver d) memory input options
           = match add memory (BaseMessage_of Role.ASSISTANT final_answer) with
             | (inr _, memory') =>
                 (inr {| RunOutput.message :=
                           BaseMessage_of Role.ASSISTANT final_answer;
                         RunOutput.state := parsed response |},
                  memory')
             | (inl error, memory') => (inl error, memory')
             end
  end.
Proof.
  unfold CustomGermanAgent._run.
  change {| maxRetries := optional_maxRetries options |} with passed.
  fold conversation.
  destruct (generate (JsonDriver.driver d) _ conversation passed)
    as [error|response] eqn:Hgen; [reflexivity|].
  pose proof (generate_counted_accepted d _ _ _ _ Hgen) as Hok.
  split; [exact Hok|].
  apply response_schema_accepted in Hok as [t [f [_ Hf]]].
  exists f. split; [assumption|]. unfold js_get_string. now rewrite Hf.
Qed.

Lemma run_returns (out : RunOutput.t) :
  run = inr out ->
  generate (JsonDriver.driver d) CustomGermanAgent.response_schema
           conversation passed = inr {| parsed := RunOutput.state out |}
  /\ accepts (RunOutput.state out) = true.
Proof.
  unfold run. pose proof run_with_json_driver as Hrun.
  destruct (generate (JsonDriver.driver d) _ conversation passed)
    as [error|response] eqn:Hgen.
  - rewrite Hrun. discriminate.
  - destruct Hrun as [Hok [f [_ ->]]].
    destruct (add memory (BaseMessage_of Role.ASSISTANT f)) as [[e|u] m'];
      cbn [fst]; [discriminate|].
    intros [= <-]. cbn [RunOutput.state]. split; [now destruct response|].
    exact Hok.
Qed.

Section PromptRendered.
Variable system : string.
Hypothesis system_rendered :
  PromptTemplate.render (extra_properties fw) CustomGermanAgent.systemPrompt
    (JObj [("schema",
            JStr (schemaToString fw CustomGermanAgent.response_schema))])
  = inr system.

(** What the chat model is asked: the system prompt, then the memory,
    then the message of the input. *)
Let ask := chat llm (BaseMessage_of Role.SYSTEM system :: conversation).

Lemma generated_by_attempt :
  JsonDriver.generate_counted d CustomGermanAgent.response_schema
                              conversation passed
  = JsonDriver.attempt ask accepts 0 bound.
Proof.
  unfold JsonDriver.generate_counted.
  cbn [JsonDriver.framework JsonDriver.systemTemplate JsonDriver.llm d
       JsonDriver.fromTemplate].
  rewrite system_rendered.
  change (JsonDriver.bound (JsonDriver.fromTemplate fw
                              CustomGermanAgent.systemPrompt llm) passed)
    with (JsonDriver.bound d passed).
  now rewrite bound_passed.
Qed.

(** C7.  The [maxRetries] of the run's options is the bound of the driver
    (the driver's own default when the options give none).  When every
    reply up to the bound comes back and is turned down, the run fails
    after exactly that many retries.  A run that succeeds returns as
    state the parsed value of the driver called with that [maxRetries]:
    a reply that the response schema accepts, the first such, got after
    at most that many retries.  A run that fails otherwise passes on a
    throw of the model call or of the memory.  The requests made are at
    most one more than the bound. *)
Theorem run_retries_bounded :
  ((forall i, i <= bound -> turned_down accepts (ask i) = true) ->
     run = inl (RetriesExhausted (S bound)))
  /\ (forall out,
        run = inr out ->
        generate (JsonDriver.driver d) CustomGermanAgent.response_schema
                 conversation passed = inr {| parsed := RunOutput.state out |}
        /\ accepts (RunOutput.state out) = true
        /\ exists i, i <= bound
                     /\ ask i = inr (Some (RunOutput.state out))
                     /\ forall j, j < i -> turned_down accepts (ask j) = true)
  /\ (forall error,
        run = inl error ->
        (exists i, i <= bound /\ ask i = inl error)
        \/ error = RetriesExhausted (S bound)
        \/ exists answer, fst (add memory answer) = inl error)
  /\ snd (JsonDriver.generate_counted d CustomGermanAgent.response_schema
            conversation passed) <= S bound.
Proof.
  pose proof run_with_json_driver as Hrun.
  pose proof generated_by_attempt as Hgen.
  cbn [generate JsonDriver.driver] in Hrun.
  split; [|split; [|split]].
  - intros Hall. unfold run.
    rewrite Hgen, attempt_all_turned_down in Hrun
      by (intros i Hi; apply Hall; lia).
    cbn [fst] in Hrun. now rewrite Hrun.
  - intros out Hout. destruct (run_returns out Hout) as [Hparsed Hok].
    split; [exact Hparsed|]. split; [exact Hok|].
    cbn [generate JsonDriver.driver] in Hparsed. rewrite Hgen in Hparsed.
    apply attempt_first_accepted in Hparsed
      as [i [Hi [Hreply [_ Hbefore]]]].
    exists i. split; [lia|]. split; [exact Hreply|].
    intros j Hj. apply Hbefore. lia.
  - intros error Hfail. unfold run in Hfail.
    destruct (fst (JsonDriver.generate_counted d _ conversation passed))
      as [e|response] eqn:Hcall.
    + rewrite Hrun in Hfail. injection Hfail as <-.
      rewrite Hgen in Hcall.
      apply attempt_failed in Hcall as [[i [Hi Hask]]|[-> _]].
      * left. exists i. split; [lia | exact Hask].
      * right. left. reflexivity.
    + destruct Hrun as [_ [f [_ Hrun]]]. rewrite Hrun in Hfail.
      right. right. exists (BaseMessage_of Role.ASSISTANT f).
      destruct (add memory (BaseMessage_of Role.ASSISTANT f)) as [[e|u] m'];
        cbn [fst] in *; [congruence | discriminate].
  - rewrite Hgen. apply attempt_requests.
Qed.
End PromptRendered.

(** C1, as the code has it.  The response schema asks for two strings and
    no more of them: every pair of strings, the empty ones too, is
    accepted.  A value in which [thought] or [final_answer] is missing is
    rejected; the driver never hands it back as parsed, whatever the
    conversation and the options, and it is the state of no run that
    succeeds. *)
Theorem response_needs_both_string_fields (v : json) :
  (forall thought final_answer,
      accepts (JObj [("thought", JStr thought);
                     ("final_answer", JStr final_answer)]) = true)
  /\ (js_get "thought" v = None \/ js_get "final_answer" v = None ->
        accepts v = false
        /\ (forall asked given response,
              generate (JsonDriver.driver d) CustomGermanAgent.response_schema
                       asked given = inr response ->
              parsed response <> v)
        /\ forall out, run = inr out -> RunOutput.state out <> v).
Proof.
  split.
  - intros t f. unfold accepts. cbn. now rewrite orb_true_r.
  - intros Hmissing.
    assert (Hrejected : accepts v = false).
    { apply response_schema_rejects_missing. unfold js_get_string.
      destruct Hmissing as [-> | ->]; [left | right]; reflexivity. }
    split; [exact Hrejected|]. split.
    + intros asked given response Hgen Hsame.
      pose proof (generate_counted_accepted d _ _ _ _ Hgen) as Hok.
      rewrite Hsame in Hok. unfold accepts in Hrejected.
      cbn [JsonDriver.framework d JsonDriver.fromTemplate] in Hok.
      congruence.
    + intros out Hout Hsame. destruct (run_returns out Hout) as [_ Hok].
      rewrite Hsame in Hok. congruence.
Qed.
End CustomAgentWithJsonDriver.

(** The system prompt as script 1 sends it under the sample framework. *)
Lemma sample_system_rendered :
  PromptTemplate.render (extra_properties sample_framework)
    CustomGermanAgent.systemPrompt
    (JObj [("schema",
            JStr (schemaToString sample_framework
                    CustomGermanAgent.response_schema))])
  = inr (CustomGermanAgent.systemPrompt_before ++ "{thought, final_answer}"
         ++ CustomGermanAgent.systemPrompt_after).
Proof. vm_compute. reflexivity. Qed.

Lemma run_retries_bounded_witness :
  fst (CustomGermanAgent._run
         (JsonDriver.driver (customAgent_driver world_mute))
         {| stored := [] |} {| RunInput.message := first_question |}
         (Some {| RunOptions.maxRetries := Some 1 |}))
  = inl (RetriesExhausted 2).
Proof.
  apply (run_retries_bounded sample_framework (chatLLM world_mute)
           {| stored := [] |} {| RunInput.message := first_question |}
           (Some {| RunOptions.maxRetries := Some 1 |})
           _ sample_system_rendered).
  intros i Hi. reflexivity.
Defined.

Lemma response_needs_both_string_fields_witness :
  zod_accepts false CustomGermanAgent.response_schema answer_only = false.
Proof.
  exact (proj1 (proj2 (response_needs_both_string_fields sample_framework
                         (chatLLM world_second_try) {| stored := [] |}
                         {| RunInput.message := first_question |} None
                         answer_only)
                      (or_introl eq_refl))).
Defined.

(** The schema sets no minimum length: two empty strings are accepted and
    come back as the state of a run. *)
Lemma empty_fields_are_accepted :
  zod_accepts false CustomGermanAgent.response_schema empty_answer = true
  /\ customAgent_outcome world_terse
     = inr {| RunOutput.message := BaseMessage_of Role.ASSISTANT "";
              RunOutput.state := empty_answer |}.
Proof. split; vm_compute; reflexivity. Qed.

(* ================================================================== *)
(** ** The two scripts *)

Lemma script1_set_up (w : World) :
  setup_fault w = None ->
  script1 w
  = (Exited 0,
     greeting :: run_events w
       ++ [match customAgent_outcome w with
           | inr response =>
               ReaderWrite "Agent 🤖 : " (text (RunOutput.message response))
           | inl error => LoggerError (ensure_dump (framework w) error)
           end;
           ProcessExit 0])%list.
Proof.
  intros Hset. unfold script1, setup. rewrite Hset.
  unfold customAgent_run.
  change (fst (CustomGermanAgent._run (JsonDriver.driver (customAgent_driver w))
                 {| stored := [] |}
                 {| RunInput.message :=
                      BaseMessage_of Role.USER
                        "What is your name and why is the sky blue?" |} None))
    with (customAgent_outcome w).
  unfold greeting, run_events, customAgent_requests, first_question.
  destruct (customAgent_outcome w) as [e|out]; cbn;
    rewrite app_nil_r, <- app_assoc; reflexivity.
Qed.

Lemma script2_set_up (w : World) :
  setup_fault w = None ->
  script2 w
  = (Returned tt,
     match getPrompt w weather_question with
     | inl error => [ConsoleError (ensure_dump (framework w) error)]
     | inr prompt =>
         ConsoleInfo ("User 👤 : " ++ prompt) :: AgentRun
           :: repeat ModelRequest (snd (bee_run w prompt bee_execution))
           ++ [match fst (bee_run w prompt bee_execution) with
               | inr response => ConsoleInfo ("Agent 🤖 : " ++ response)
               | inl error => ConsoleError (ensure_dump (framework w) error)
               end]
     end)%list.
Proof.
  intros Hset. unfold script2, setup. rewrite Hset.
  unfold weather_question, bee_execution.
  destruct (getPrompt w _) as [e|prompt]; [reflexivity|].
  cbn. destruct (bee_run w prompt _) as [[e|response] n]; cbn;
    rewrite app_nil_r; reflexivity.
Qed.

Lemma script_not_set_up (w : World) (e : Thrown) :
  setup_fault w = Some e ->
  script1 w = (Threw e, []) /\ script2 w = (Threw e, []).
Proof.
  intros Hset. unfold script1, script2, setup. rewrite Hset.
  split; reflexivity.
Qed.

(** *** Counting calls *)

Lemma count_app (p : Event -> bool) (t1 t2 : list Event) :
  count p (t1 ++ t2) = count p t1 + count p t2.
Proof. unfold count. now rewrite filter_app, length_app. Qed.

Lemma count_repeat_same (n : nat) :
  count is_ModelRequest (repeat ModelRequest n) = n.
Proof.
  induction n as [|n IH]; [reflexivity|].
  unfold count in *. simpl. now rewrite IH.
Qed.

Lemma count_repeat_other (p : Event -> bool) (n : nat) :
  p ModelRequest = false -> count p (repeat ModelRequest n) = 0.
Proof.
  intros Hp. induction n as [|n IH]; [reflexivity|].
  unfold count in *. simpl. now rewrite Hp.
Qed.

Lemma observer_output_only (w : World) (ds : list Delivery) :
  forallb output_only (flat_map (observer w) ds) = true.
Proof.
  induction ds as [|d ds IH]; [reflexivity|].
  simpl. rewrite forallb_app, IH, andb_true_r.
  destruct d as [| | | |[] name data]; try reflexivity.
  simpl. destruct (name =? "start"); [reflexivity|].
  destruct (name =? "success"); [reflexivity|].
  destruct (name =? "error"); reflexivity.
Qed.

Lemma count_output_only (p : Event -> bool) (t : list Event) :
  (forall ev, output_only ev = true -> p ev = false) ->
  forallb output_only t = true -> count p t = 0.
Proof.
  intros Hp. induction t as [|ev t IH]; [reflexivity|].
  simpl. intros [Hev Ht]%andb_true_iff. unfold count in *. simpl.
  rewrite (Hp ev Hev). now apply IH.
Qed.

Lemma count_run_events (w : World) :
  count is_AgentRun (run_events w) = 1
  /\ count is_ModelRequest (run_events w) = customAgent_requests w
  /\ count is_LoggerError (run_events w) = 0.
Proof.
  unfold run_events.
  change (AgentRun :: ?l)%list with ([AgentRun] ++ l)%list.
  rewrite !count_app, !count_repeat_same.
  rewrite !count_repeat_other by reflexivity.
  assert (Hobs : forall p, (forall ev, output_only ev = true -> p ev = false) ->
                 count p (flat_map (observer w) (deliveries w)) = 0)
    by (intros p Hp; apply count_output_only;
        [assumption | apply observer_output_only]).
  rewrite (Hobs is_AgentRun), (Hobs is_ModelRequest), (Hobs is_LoggerError)
    by (now intros []).
  repeat split; unfold count; simpl; lia.
Qed.

Lemma exit_codes_app (t1 t2 : list Event) :
  exit_codes (t1 ++ t2) = (exit_codes t1 ++ exit_codes t2)%list.
Proof. apply flat_map_app. Qed.

Lemma exit_codes_output_only (t : list Event) :
  forallb output_only t = true -> exit_codes t = [].
Proof.
  induction t as [|ev t IH]; [reflexivity|].
  simpl. intros [Hev Ht]%andb_true_iff. rewrite (IH Ht).
  destruct ev; try discriminate; reflexivity.
Qed.

Lemma exit_codes_repeat (n : nat) : exit_codes (repeat ModelRequest n) = [].
Proof. induction n as [|n IH]; [reflexivity | exact IH]. Qed.

Lemma exit_codes_run_events (w : World) : exit_codes (run_events w) = [].
Proof.
  unfold run_events. change (AgentRun :: ?l)%list with ([AgentRun] ++ l)%list.
  rewrite !exit_codes_app, exit_codes_repeat.
  now rewrite (exit_codes_output_only _ (observer_output_only w _)).
Qed.

(** *** Exit codes *)

(** C4, as the code has it.  In every run in which the statements before
    the [try] complete, script 1 ends the process with code 0 and script 2
    runs to its end, which is code 0 as well, whether the agent answers or
    an error is caught and logged; and in no run at all does either script
    give [process.exit] a code other than 0. *)
Theorem exit_code_zero_once_set_up (w : World) :
  (setup_fault w = None ->
     fst (script1 w) = Exited 0 /\ exit_code (script1 w) = 0%Z
     /\ fst (script2 w) = Returned tt /\ exit_code (script2 w) = 0%Z)
  /\ Forall (fun code => code = 0%Z)
            (exit_codes (trace (script1 w)) ++ exit_codes (trace (script2 w))).
Proof.
  split.
  - intros Hset. unfold exit_code.
    rewrite (script1_set_up w Hset), (script2_set_up w Hset). now simpl.
  - destruct (setup_fault w) as [e|] eqn:Hset.
    + destruct (script_not_set_up w e Hset) as [-> ->]. constructor.
    + rewrite (script1_set_up w Hset), (script2_set_up w Hset). unfold trace.
      cbn [snd]. change (greeting :: ?l)%list with ([greeting] ++ l)%list.
      rewrite !exit_codes_app, exit_codes_run_events.
      destruct (customAgent_outcome w) as [e|out];
        destruct (getPrompt w weather_question) as [e'|prompt];
        try (destruct (fst (bee_run w prompt bee_execution)));
        cbn; try rewrite exit_codes_app, exit_codes_repeat;
        repeat constructor.
Qed.

Lemma exit_code_zero_once_set_up_witness :
  exit_code (script1 world_mute) = 0%Z /\ exit_code (script2 world_mute) = 0%Z.
Proof.
  destruct (exit_code_zero_once_set_up world_mute) as [Hzero _].
  destruct (Hzero eq_refl) as [_ [H1 [_ H2]]]. split; assumption.
Defined.

(** A statement before the [try] that throws is not caught: the exception
    leaves the module and the process ends with code 1. *)
Lemma exit_code_nonzero_when_setup_throws :
  exit_code (script1 world_unconfigured) = 1%Z
  /\ exit_code (script2 world_unconfigured) = 1%Z
  /\ ~ (forall w, exit_code (script1 w) = 0%Z /\ exit_code (script2 w) = 0%Z).
Proof.
  split; [reflexivity|]. split; [reflexivity|].
  intros Hall. destruct (Hall world_unconfigured) as [H1 _]. discriminate H1.
Qed.

(** *** Errors of the run *)

(** C5.  When the run of the agent throws, each script catches the error
    once, in its one handler: the trace of script 1 ends with one call of
    the logger with the dump of that error and the exit, that of script 2
    with one call of [console.error] with the dump; the agent is run once
    and not again. *)
Theorem run_error_caught_once (w : World) :
  setup_fault w = None ->
  (forall error,
      customAgent_outcome w = inl error ->
      script1 w
      = (Exited 0,
         greeting :: run_events w
           ++ [LoggerError (ensure_dump (framework w) error); ProcessExit 0])%list
      /\ count is_LoggerError (trace (script1 w)) = 1
      /\ count is_AgentRun (trace (script1 w)) = 1)
  /\ (forall prompt error requests,
        getPrompt w weather_question = inr prompt ->
        bee_run w prompt bee_execution = (inl error, requests) ->
        script2 w
        = (Returned tt,
           ConsoleInfo ("User 👤 : " ++ prompt) :: AgentRun
             :: repeat ModelRequest requests
             ++ [ConsoleError (ensure_dump (framework w) error)])%list
        /\ count is_ConsoleError (trace (script2 w)) = 1
        /\ count is_AgentRun (trace (script2 w)) = 1).
Proof.
  intros Hset. split.
  - intros error Hrun. rewrite (script1_set_up w Hset), Hrun.
    split; [reflexivity|]. unfold trace. cbn [snd].
    change (greeting :: ?l)%list with ([greeting] ++ l)%list.
    rewrite !count_app.
    destruct (count_run_events w) as [-> [_ ->]]. split; reflexivity.
  - intros prompt error requests Hprompt Hrun.
    rewrite (script2_set_up w Hset), Hprompt, Hrun. cbn [fst snd].
    split; [reflexivity|]. unfold trace. cbn [snd].
    change (?a :: AgentRun :: ?l)%list with ([a; AgentRun] ++ l)%list.
    rewrite !count_app, !count_repeat_other by reflexivity.
    split; reflexivity.
Qed.

Lemma run_error_caught_once_witness :
  count is_LoggerError (trace (script1 world_offline)) = 1
  /\ In (LoggerError "network unreachable") (trace (script1 world_offline))
  /\ count is_ConsoleError (trace (script2 world_offline)) = 1.
Proof.
  destruct (run_error_caught_once world_offline eq_refl) as [H1 H2].
  destruct (H1 (Other "network unreachable") eq_refl) as [Htrace [Hlogged _]].
  destruct (H2 weather_question (Other "tool failed") 2 eq_refl eq_refl)
    as [_ [Hprinted _]].
  split; [exact Hlogged|]. split; [|exact Hprinted].
  rewrite Htrace. unfold trace. cbn [snd]. right.
  apply in_or_app. right. left. reflexivity.
Defined.

(** Whatever the model call throws, a network failure or another error of
    the framework, is the error of the run of script 1: the errors the
    handler of script 1 is proved for are all of them. *)
Lemma any_error_reaches_the_handler (error : Thrown) :
  customAgent_outcome (sample_world None (fun _ _ => inl error)) = inl error.
Proof.
  unfold customAgent_outcome, CustomGermanAgent._run.
  cbn [generate JsonDriver.driver].
  unfold JsonDriver.generate_counted.
  cbn [JsonDriver.framework JsonDriver.systemTemplate JsonDriver.llm
       customAgent_driver JsonDriver.fromTemplate framework sample_world].
  rewrite sample_system_rendered. reflexivity.
Qed.

(** *** One run per invocation *)

(** C6, as the code has it.  Each script runs its agent once per
    invocation and the process ends after it, script 1 by its exit with
    code 0 and script 2 by reaching its end.  The requests to the model
    made inside that one run are the framework's: in script 1 one per
    attempt of the driver, at most one more than its default bound. *)
Theorem one_run_per_invocation (w : World) :
  setup_fault w = None ->
  count is_AgentRun (trace (script1 w)) = 1
  /\ count is_ModelRequest (trace (script1 w)) = customAgent_requests w
  /\ customAgent_requests w <= 1 + defaultMaxRetries (framework w)
  /\ fst (script1 w) = Exited 0
  /\ (exists before, trace (script1 w) = (before ++ [ProcessExit 0])%list)
  /\ fst (script2 w) = Returned tt
  /\ forall prompt,
       getPrompt w weather_question = inr prompt ->
       count is_AgentRun (trace (script2 w)) = 1
       /\ count is_ModelRequest (trace (script2 w))
          = snd (bee_run w prompt bee_execution).
Proof.
  intros Hset. rewrite (script1_set_up w Hset), (script2_set_up w Hset).
  unfold trace. cbn [fst snd].
  destruct (count_run_events w) as [Hruns [Hrequests _]].
  split; [|split; [|split; [|split; [|split; [|split]]]]].
  - change (greeting :: ?l)%list with ([greeting] ++ l)%list.
    rewrite !count_app, Hruns.
    destruct (customAgent_outcome w); reflexivity.
  - change (greeting :: ?l)%list with ([greeting] ++ l)%list.
    rewrite !count_app, Hrequests.
    destruct (customAgent_outcome w); unfold count; simpl; lia.
  - apply (generate_counted_requests (customAgent_driver w)).
  - reflexivity.
  - eexists (greeting :: run_events w ++ [_])%list.
    cbn [app]. rewrite <- app_assoc. reflexivity.
  - reflexivity.
  - intros prompt Hprompt. rewrite Hprompt.
    change (?a :: AgentRun :: ?l)%list with ([a; AgentRun] ++ l)%list.
    rewrite !count_app, count_repeat_same, !count_repeat_other by reflexivity.
    split.
    + destruct (fst (bee_run w prompt bee_execution)); reflexivity.
    + destruct (fst (bee_run w prompt bee_execution)); unfold count; simpl; lia.
Qed.

Lemma one_run_per_invocation_witness :
  count is_AgentRun (trace (script1 world_second_try)) = 1
  /\ count is_ModelRequest (trace (script1 world_second_try)) <= 4.
Proof.
  destruct (one_run_per_invocation world_second_try eq_refl)
    as [Hruns [Hrequests [Hbound _]]].
  split; [assumption|]. rewrite Hrequests. exact Hbound.
Defined.

(** One run, two requests: the first reply lacks a field, the driver asks
    again. *)
Lemma two_model_requests_in_one_run :
  count is_AgentRun (trace (script1 world_second_try)) = 1
  /\ count is_ModelRequest (trace (script1 world_second_try)) = 2.
Proof. split; vm_compute; reflexivity. Qed.

(* ================================================================== *)
(** * Further properties *)

(** ** More on the chat prompt *)

Lemma length_append (a b : string) :
  String.length (a ++ b) = String.length a + String.length b.
Proof. induction a as [|c a IH]; simpl; [reflexivity | now rewrite IH]. Qed.

Lemma append_cancel_r (a b c : string) : a ++ c = b ++ c -> a = b.
Proof.
  revert b. induction a as [|x a IH]; intros [|y b] Heq; simpl in *.
  - reflexivity.
  - apply (f_equal String.length) in Heq. simpl in Heq.
    rewrite length_append in Heq. lia.
  - apply (f_equal String.length) in Heq. simpl in Heq.
    rewrite length_append in Heq. lia.
  - injection Heq as -> Heq. f_equal. now apply IH.
Qed.

(** X2.  The prompt of two lists of messages put one after the other is
    the segments of the first, then those of the second, then the one
    header of the assistant. *)
Theorem messagesToPrompt_of_concatenation (extra : bool)
    (earlier later : list BaseMessage) (p q : string) :
  messagesToPrompt extra earlier = inr (p ++ header "assistant") ->
  messagesToPrompt extra later = inr (q ++ header "assistant") ->
  messagesToPrompt extra (earlier ++ later)
  = inr (p ++ q ++ header "assistant").
Proof.
  rewrite !messagesToPrompt_contributions.
  intros [= Hp%append_cancel_r] [= Hq%append_cancel_r].
  rewrite map_app, joined_app, Hp, Hq. now rewrite append_assoc.
Qed.

Lemma messagesToPrompt_of_concatenation_witness :
  messagesToPrompt false
    ([BaseMessage_of "user" "Hallo"] ++ [BaseMessage_of "assistant" "Guten Tag!"])
  = inr ((header "user" ++ "Hallo" ++ "<|eot_id|>")
         ++ (header "assistant" ++ "Guten Tag!" ++ "<|eot_id|>")
         ++ header "assistant").
Proof.
  apply (messagesToPrompt_of_concatenation false); vm_compute; reflexivity.
Defined.

(** X3.  The text of a message is not escaped: a user message whose text
    holds the end-of-turn token and the header of a system turn gives the
    same prompt as a user message followed by a system message, and the
    chat model of script 1 gets the same reply for both. *)
Theorem user_text_can_forge_a_system_segment (w : World) (a b : string)
    (request : nat) :
  let forged :=
    [BaseMessage_of "user"
       (a ++ "<|eot_id|>" ++ "<|begin_of_text|>" ++ header "system" ++ b)] in
  let genuine := [BaseMessage_of "user" a; BaseMessage_of "system" b] in
  messagesToPrompt (extra_properties (framework w)) forged
  = messagesToPrompt (extra_properties (framework w)) genuine
  /\ chat (chatLLM w) forged request = chat (chatLLM w) genuine request.
Proof.
  intros forged genuine.
  assert (Hsame : messagesToPrompt (extra_properties (framework w)) forged
                  = messagesToPrompt (extra_properties (framework w)) genuine).
  { unfold forged, genuine. rewrite !messagesToPrompt_contributions.
    do 2 f_equal. unfold contribution, segment, joined.
    cbn [map fold_right role text BaseMessage_of chat_role String.eqb
         Ascii.eqb Bool.eqb orb].
    rewrite !append_nil_r. cbn [append].
    rewrite !append_assoc. reflexivity. }
  split; [exact Hsame|].
  unfold chatLLM, WatsonXChatLLM. cbn [chat]. now rewrite Hsame.
Qed.

(* ================================================================== *)
(** ** More on one run and on runs in a row *)

Lemma run_memory_step (driver : Driver) (memory : UnconstrainedMemory)
    (input : RunInput.t) (options : option RunOptions.t) :
  let '(result, memory') :=
    CustomGermanAgent._run driver memory input options in
  messages memory' = (messages memory ++ answers [result])%list
  /\ Forall (fun m => role m = Role.ASSISTANT) (answers [result]).
Proof.
  unfold CustomGermanAgent._run.
  destruct (generate driver _ _ _) as [e|response].
  - simpl. split; [now rewrite app_nil_r | constructor].
  - destruct (js_get_string "final_answer" (parsed response)) as [f|].
    + simpl. split; [reflexivity | repeat constructor].
    + simpl. split; [now rewrite app_nil_r | constructor].
Qed.

Lemma answers_cons (r : Thrown + RunOutput.t)
    (rs : list (Thrown + RunOutput.t)) :
  answers (r :: rs) = (answers [r] ++ answers rs)%list.
Proof. destruct r; reflexivity. Qed.

(** X5.  After any number of runs on an unconstrained memory, whatever
    the drivers and the inputs, the memory is what it was followed by the
    messages of the runs that succeeded, in their order, all of the
    assistant role: what the user sent in a run is in no later memory. *)
Theorem memory_holds_the_answers_only (memory : UnconstrainedMemory)
    (calls : list (Driver * RunInput.t * option RunOptions.t)) :
  messages (snd (runs memory calls))
  = (messages memory ++ answers (fst (runs memory calls)))%list
  /\ Forall (fun m => role m = Role.ASSISTANT)
            (answers (fst (runs memory calls)))
  /\ List.length (fst (runs memory calls)) = List.length calls.
Proof.
  revert memory. induction calls as [|[[driver input] options] rest IH];
    intros memory; cbn [runs].
  - cbn [fst snd answers]. split; [now rewrite app_nil_r|].
    split; [constructor | reflexivity].
  - pose proof (run_memory_step driver memory input options) as Hstep.
    destruct (CustomGermanAgent._run driver memory input options)
      as [result memory1].
    destruct Hstep as [Hmem Hrole].
    specialize (IH memory1). destruct (runs memory1 rest) as [results memory2].
    cbn [fst snd] in *.
    destruct IH as [Hmem' [Hroles Hlen]].
    rewrite (answers_cons result results).
    split; [|split].
    + rewrite Hmem', Hmem. now rewrite app_assoc.
    + apply Forall_app. split; assumption.
    + cbn [List.length]. now rewrite Hlen.
Qed.

(* ================================================================== *)
(** ** More on the two scripts *)

(** X6.  When the run of script 1 returns, the trace is the greeting, the
    run, one line for the reader with the text of the answer, which is the
    [final_answer] of the state, and the exit; the logger is not called. *)
Theorem script1_prints_the_answer (w : World) (response : RunOutput.t) :
  setup_fault w = None ->
  customAgent_outcome w = inr response ->
  script1 w
  = (Exited 0,
     greeting :: run_events w
       ++ [ReaderWrite "Agent 🤖 : " (text (RunOutput.message response));
           ProcessExit 0])%list
  /\ count is_LoggerError (trace (script1 w)) = 0
  /\ js_get "final_answer" (RunOutput.state response)
     = Some (JStr (text (RunOutput.message response))).
Proof.
  intros Hset Hrun. rewrite (script1_set_up w Hset), Hrun.
  split; [reflexivity|]. split.
  - unfold trace. cbn [snd].
    change (greeting :: ?l)%list with ([greeting] ++ l)%list.
    rewrite !count_app. destruct (count_run_events w) as [_ [_ ->]].
    reflexivity.
  - unfold customAgent_outcome in Hrun.
    destruct (CustomGermanAgent._run _ _ _ _) as [result memory'] eqn:Hcall.
    simpl in Hrun. subst result.
    now apply run_cases in Hcall as [r [f [_ [Hf [-> _]]]]].
Qed.

Lemma script1_prints_the_answer_witness :
  count is_LoggerError (trace (script1 world_answering)) = 0.
Proof.
  destruct (script1_prints_the_answer world_answering sample_output)
    as [_ [Hquiet _]].
  - reflexivity.
  - vm_compute. reflexivity.
  - exact Hquiet.
Defined.

(** X7.  In script 2 an error of [getPrompt], thrown inside the [try]
    before the agent is called, is caught by the same handler: its dump
    goes to [console.error], the agent is not run, no request is made, and
    the exit code is 0. *)
Theorem script2_prompt_error_is_caught (w : World) (error : Thrown) :
  setup_fault w = None ->
  getPrompt w weather_question = inl error ->
  script2 w = (Returned tt, [ConsoleError (ensure_dump (framework w) error)])
  /\ count is_AgentRun (trace (script2 w)) = 0
  /\ count is_ModelRequest (trace (script2 w)) = 0
  /\ exit_code (script2 w) = 0%Z.
Proof.
  intros Hset Hprompt. rewrite (script2_set_up w Hset), Hprompt.
  repeat split.
Qed.

Lemma script2_prompt_error_is_caught_witness :
  script2 world_no_prompt = (Returned tt, [ConsoleError "no prompt"]).
Proof.
  apply (script2_prompt_error_is_caught world_no_prompt (Other "no prompt"));
    reflexivity.
Defined.

(** X8.  When the run of script 2 returns, the trace is the line with the
    prompt, the run with its requests and the line with the answer;
    [console.error] is not called. *)
Theorem script2_prints_the_answer (w : World) (prompt answer : string)
    (requests : nat) :
  setup_fault w = None ->
  getPrompt w weather_question = inr prompt ->
  bee_run w prompt bee_execution = (inr answer, requests) ->
  script2 w
  = (Returned tt,
     ConsoleInfo ("User 👤 : " ++ prompt) :: AgentRun
       :: repeat ModelRequest requests
       ++ [ConsoleInfo ("Agent 🤖 : " ++ answer)])%list
  /\ count is_ConsoleError (trace (script2 w)) = 0.
Proof.
  intros Hset Hprompt Hrun.
  rewrite (script2_set_up w Hset), Hprompt, Hrun. cbn [fst snd].
  split; [reflexivity|]. unfold trace. cbn [snd].
  change (?a :: AgentRun :: ?l)%list with ([a; AgentRun] ++ l)%list.
  rewrite !count_app, !count_repeat_other by reflexivity. reflexivity.
Qed.

Lemma script2_prints_the_answer_witness :
  count is_ConsoleError (trace (script2 world_sunny)) = 0.
Proof.
  apply (script2_prints_the_answer world_sunny weather_question
           "Sunny, 31 C." 3); reflexivity.
Defined.

(** X9.  Whatever the framework delivers to the callbacks of script 1,
    they only print, at most two lines for a delivery: they never call the
    logger, never end the process, never run the agent.  Events that the
    listener on every event gets from a creator other than the chat model
    print nothing. *)
Theorem observer_only_prints (w : World) (ds : list Delivery) :
  forallb output_only (flat_map (observer w) ds) = true
  /\ List.length (flat_map (observer w) ds) <= 2 * List.length ds
  /\ (forallb from_other_creator ds = true -> flat_map (observer w) ds = []).
Proof.
  split; [apply observer_output_only|]. split.
  - induction ds as [|d ds IH]; [simpl; lia|].
    cbn [flat_map]. rewrite length_app. cbn [List.length].
    assert (List.length (observer w d) <= 2); [|lia].
    destruct d as [| | | |[] name data]; simpl; try lia.
    destruct (name =? "start"); [simpl; lia|].
    destruct (name =? "success"); [simpl; lia|].
    destruct (name =? "error"); simpl; lia.
  - induction ds as [|d ds IH]; [reflexivity|].
    simpl. intros [Hd Hds]%andb_true_iff. rewrite (IH Hds).
    destruct d as [| | | |[] name data]; try discriminate. reflexivity.
Qed.

Lemma observer_only_prints_witness :
  flat_map (observer world_answering)
    [OnAny false "start"
       {| data_input := "in"; data_finalResult := "out"; data_printed := "d" |}]
  = [].
Proof.
  apply (observer_only_prints world_answering). reflexivity.
Defined.


(* ================================================================== *)
(** ** Objects: setting and reading properties *)

Lemma assoc_obj_set_same (k : string) (v : Value) (o : Obj) :
  assoc k (obj_set k v o) = Some v.
Proof.
  induction o as [|[k' v'] o IH]; simpl.
  - now rewrite String.eqb_refl.
  - destruct (k' =? k) eqn:E; simpl.
    + now rewrite String.eqb_refl.
    + now rewrite E.
Qed.

Lemma assoc_obj_set_other (k k' : string) (v : Value) (o : Obj) :
  k <> k' -> assoc k' (obj_set k v o) = assoc k' o.
Proof.
  intros Hne. induction o as [|[k0 v0] o IH]; simpl.
  - destruct (String.eqb_spec k k'); [contradiction | reflexivity].
  - destruct (String.eqb_spec k0 k) as [->|Hk]; simpl.
    + destruct (String.eqb_spec k k'); [contradiction | reflexivity].
    + destruct (k0 =? k'); [reflexivity | exact IH].
Qed.

Lemma obj_get_set_same (k : string) (v : Value) (o : Obj) :
  obj_get k (obj_set k v o) = v.
Proof. unfold obj_get. now rewrite assoc_obj_set_same. Qed.

Lemma obj_get_set_other (k k' : string) (v : Value) (o : Obj) :
  k <> k' -> obj_get k' (obj_set k v o) = obj_get k' o.
Proof. intros Hne. unfold obj_get. now rewrite assoc_obj_set_other. Qed.

Lemma keys_obj_set (k k' : string) (v : Value) (o : Obj) :
  In k' (map fst (obj_set k v o)) <-> k' = k \/ In k' (map fst o).
Proof.
  induction o as [|[k0 v0] o IH]; simpl.
  - intuition congruence.
  - destruct (String.eqb_spec k0 k) as [->|Hk]; simpl.
    + intuition congruence.
    + rewrite IH. intuition congruence.
Qed.

(** Setting a property never makes a second property of the same name. *)
Lemma NoDup_obj_set (k : string) (v : Value) (o : Obj) :
  NoDup (map fst o) -> NoDup (map fst (obj_set k v o)).
Proof.
  induction o as [|[k0 v0] o IH]; simpl; intros Hnd.
  - repeat constructor. intros [].
  - inversion Hnd as [|x l Hin Hnd']; subst.
    destruct (String.eqb_spec k0 k) as [->|Hk]; simpl.
    + constructor; assumption.
    + constructor; [|now apply IH].
      rewrite keys_obj_set. intros [->|Hin']; [now apply Hk | now apply Hin].
Qed.

Lemma NoDup_Object_assign (target source : Obj) :
  NoDup (map fst target) -> NoDup (map fst (Object_assign target source)).
Proof.
  unfold Object_assign. revert target.
  induction source as [|[k v] s IH]; intros target Hnd; simpl; [assumption|].
  apply IH. now apply NoDup_obj_set.
Qed.

Lemma assoc_not_key {A : Type} (k : string) (o : list (string * A)) :
  ~ In k (map fst o) -> assoc k o = None.
Proof.
  induction o as [|[k0 v0] o IH]; simpl; intros Hn; [reflexivity|].
  destruct (String.eqb_spec k0 k) as [->|Hk]; [exfalso; auto|].
  apply IH. auto.
Qed.

(** After [Object.assign] a property is that of the source where the
    source has it, and that of the target where not. *)
Lemma assoc_Object_assign (k : string) (target source : Obj) :
  NoDup (map fst source) ->
  assoc k (Object_assign target source)
  = match assoc k source with
    | Some v => Some v
    | None => assoc k target
    end.
Proof.
  unfold Object_assign. revert target.
  induction source as [|[k1 v1] s IH]; intros target Hnd; simpl;
    [reflexivity|].
  inversion Hnd as [|x l Hin Hnd']; subst. rewrite (IH _ Hnd').
  destruct (String.eqb_spec k1 k) as [->|Hk].
  - rewrite (assoc_not_key k s Hin). apply assoc_obj_set_same.
  - destruct (assoc k s); [reflexivity|]. now apply assoc_obj_set_other.
Qed.

Lemma obj_get_Object_assign (k : string) (target source : Obj) :
  NoDup (map fst source) ->
  obj_get k (Object_assign target source)
  = match assoc k source with
    | Some v => v
    | None => obj_get k target
    end.
Proof.
  intros Hnd. unfold obj_get. rewrite (assoc_Object_assign k _ _ Hnd).
  now destruct (assoc k source).
Qed.

(** ** Snapshots *)

Lemma NoDup_createSnapshot (inherited this : Obj) :
  NoDup (map fst (createSnapshot inherited this)).
Proof.
  unfold createSnapshot. do 3 apply NoDup_obj_set.
  apply NoDup_Object_assign. constructor.
Qed.

Lemma assoc_createSnapshot_own (inherited this : Obj) (k : string) :
  own_key k = true ->
  assoc k (createSnapshot inherited this) = Some (obj_get k this).
Proof.
  unfold own_key. rewrite !orb_true_iff, !String.eqb_eq.
  unfold createSnapshot. intros [[->| ->]| ->].
  - rewrite !assoc_obj_set_other by discriminate. apply assoc_obj_set_same.
  - rewrite assoc_obj_set_other by discriminate. apply assoc_obj_set_same.
  - apply assoc_obj_set_same.
Qed.

Lemma obj_get_loaded_own (inherited this target : Obj) (k : string) :
  own_key k = true ->
  obj_get k (loadSnapshot target (createSnapshot inherited this))
  = obj_get k this.
Proof.
  intros Hk. unfold loadSnapshot.
  rewrite (obj_get_Object_assign k _ _ (NoDup_createSnapshot inherited this)).
  now rewrite (assoc_createSnapshot_own inherited this k Hk).
Qed.

(** X11.  In a snapshot the driver, the emitter and the memory are those
    of the agent, also where the inherited snapshot has properties of
    these names; every other property is the inherited one. *)
Theorem createSnapshot_own_fields_win (inherited this : Obj) :
  NoDup (map fst inherited) ->
  obj_get "driver" (createSnapshot inherited this) = obj_get "driver" this
  /\ obj_get "emitter" (createSnapshot inherited this) = obj_get "emitter" this
  /\ obj_get "memory" (createSnapshot inherited this) = obj_get "memory" this
  /\ forall k, own_key k = false ->
       assoc k (createSnapshot inherited this) = assoc k inherited.
Proof.
  intros Hnd.
  assert (Hown : forall k, own_key k = true ->
            obj_get k (createSnapshot inherited this) = obj_get k this).
  { intros k Hk. unfold obj_get at 1.
    now rewrite (assoc_createSnapshot_own inherited this k Hk). }
  split; [now apply Hown|]. split; [now apply Hown|]. split; [now apply Hown|].
  intros k Hk. unfold own_key in Hk. rewrite !orb_false_iff in Hk.
  destruct Hk as [[Hkd Hke] Hkm]. apply String.eqb_neq in Hkd, Hke, Hkm.
  unfold createSnapshot.
  rewrite !assoc_obj_set_other by congruence.
  rewrite (assoc_Object_assign k [] inherited Hnd).
  now destruct (assoc k inherited).
Qed.

Lemma createSnapshot_own_fields_win_witness :
  obj_get "emitter" (createSnapshot sample_inherited sample_agent)
  = VEmitter {| namespace := ["agent"; "custom"] |}
  /\ assoc "isRunning" (createSnapshot sample_inherited sample_agent)
     = Some (VPlain (JBool false)).
Proof.
  destruct (createSnapshot_own_fields_win sample_inherited sample_agent)
    as [_ [Hemitter [_ Hother]]].
  - repeat constructor; simpl; intuition discriminate.
  - split; [exact Hemitter | exact (Hother "isRunning" eq_refl)].
Defined.

(** X12.  Loading the snapshot of an agent into any object gives that
    object the driver, the emitter and the memory of the agent and leaves
    alone the properties the snapshot does not have; a snapshot taken of
    the result is, property for property, the snapshot that was loaded. *)
Theorem loadSnapshot_restores (inherited this target : Obj) :
  let restored := loadSnapshot target (createSnapshot inherited this) in
  obj_get "driver" restored = obj_get "driver" this
  /\ obj_get "emitter" restored = obj_get "emitter" this
  /\ obj_get "memory" restored = obj_get "memory" this
  /\ (forall k, assoc k (createSnapshot inherited this) = None ->
        assoc k restored = assoc k target)
  /\ forall k, assoc k (createSnapshot inherited restored)
               = assoc k (createSnapshot inherited this).
Proof.
  intros restored. unfold restored.
  pose proof (obj_get_loaded_own inherited this target) as Hown.
  split; [now apply Hown|]. split; [now apply Hown|]. split; [now apply Hown|].
  split.
  - intros k Hk. unfold loadSnapshot.
    rewrite (assoc_Object_assign k _ _ (NoDup_createSnapshot inherited this)).
    now rewrite Hk.
  - intros k. unfold createSnapshot at 1 3.
    rewrite !(Hown "driver"), !(Hown "emitter"), !(Hown "memory") by reflexivity.
    reflexivity.
Qed.

(** X13.  An agent restored from a snapshot runs as the agent the
    snapshot was taken of: the same result, and the same change of the
    same memory, for the snapshot holds the memory by reference. *)
Theorem restored_agent_runs_alike (inherited this target : Obj)
    (store : Store) (input : RunInput.t) (options : option RunOptions.t) :
  run_object store (loadSnapshot target (createSnapshot inherited this))
             input options
  = run_object store this input options.
Proof.
  unfold run_object.
  now rewrite !(obj_get_loaded_own inherited this target) by reflexivity.
Qed.

(** ** The constructor *)

Lemma obj_get_new (fw : Framework) (base : Obj) (input : AgentInput.t) :
  obj_get "driver" (new_CustomGermanAgent fw base input)
  = VDriver (JsonDriver.fromTemplate fw CustomGermanAgent.systemPrompt
               (AgentInput.llm input))
  /\ obj_get "memory" (new_CustomGermanAgent fw base input)
     = VMemory (AgentInput.memory input).
Proof.
  unfold new_CustomGermanAgent. split.
  - rewrite obj_get_set_other by discriminate. apply obj_get_set_same.
  - apply obj_get_set_same.
Qed.

Lemma run_object_new (fw : Framework) (base : Obj) (input : AgentInput.t)
    (store : Store) (message : RunInput.t) (options : option RunOptions.t) :
  run_object store (new_CustomGermanAgent fw base input) message options
  = (fst (CustomGermanAgent._run
            (JsonDriver.driver
               (JsonDriver.fromTemplate fw CustomGermanAgent.systemPrompt
                  (AgentInput.llm input)))
            (store (AgentInput.memory input)) message options),
     store_set store (AgentInput.memory input)
       (snd (CustomGermanAgent._run
               (JsonDriver.driver
                  (JsonDriver.fromTemplate fw CustomGermanAgent.systemPrompt
                     (AgentInput.llm input)))
               (store (AgentInput.memory input)) message options))).
Proof.
  unfold run_object. destruct (obj_get_new fw base input) as [-> ->].
  now destruct (CustomGermanAgent._run _ _ _ _).
Qed.

(** X14.  The constructor keeps the memory it is given, not a copy of it:
    of two agents made over one memory, whatever [super()] left in them
    and whatever their chat models, a run of the first that succeeds
    appends its answer to that memory and to no other, and the next run of
    the second goes as on the memory with that answer in it. *)
Theorem agents_on_one_memory_share_it (fw : Framework) (base1 base2 : Obj)
    (llm1 llm2 : ChatLLM) (ref : nat) (store store' : Store)
    (input input2 : RunInput.t) (options options2 : option RunOptions.t)
    (out : RunOutput.t) :
  run_object store
    (new_CustomGermanAgent fw base1
       {| AgentInput.llm := llm1; AgentInput.memory := ref |})
    input options = (inr out, store') ->
  messages (store' ref) = (messages (store ref) ++ [RunOutput.message out])%list
  /\ (forall ref', ref' <> ref -> store' ref' = store ref')
  /\ fst (run_object store'
            (new_CustomGermanAgent fw base2
               {| AgentInput.llm := llm2; AgentInput.memory := ref |})
            input2 options2)
     = fst (CustomGermanAgent._run
              (JsonDriver.driver
                 (JsonDriver.fromTemplate fw CustomGermanAgent.systemPrompt
                    llm2))
              {| stored := stored (store ref) ++ [RunOutput.message out] |}
              input2 options2).
Proof.
  rewrite run_object_new. cbn [AgentInput.llm AgentInput.memory].
  destruct (CustomGermanAgent._run _ (store ref) input options)
    as [result memory'] eqn:Hrun.
  cbn [fst snd]. intros [= -> <-].
  apply run_cases in Hrun as [response [f [_ [_ [-> Hadd]]]]].
  cbn in Hadd. injection Hadd as <-.
  assert (Hat : store_set store ref
                  {| stored := stored (store ref)
                               ++ [BaseMessage_of Role.ASSISTANT f] |} ref
                = {| stored := stored (store ref)
                               ++ [BaseMessage_of Role.ASSISTANT f] |}).
  { unfold store_set. now rewrite Nat.eqb_refl. }
  split; [|split].
  - now rewrite Hat.
  - intros ref' Hne. unfold store_set.
    now destruct (Nat.eqb_spec ref' ref).
  - rewrite run_object_new. cbn [AgentInput.llm AgentInput.memory fst].
    now rewrite Hat.
Qed.

Lemma agents_on_one_memory_share_it_witness :
  messages (store_set sample_store 0
              {| stored := [first_question; RunOutput.message sample_output] |}
              0)
  = (messages (sample_store 0) ++ [RunOutput.message sample_output])%list.
Proof.
  refine (proj1 (agents_on_one_memory_share_it sample_framework
                   [("isRunning", VPlain (JBool false)); ("memory", VPlain JNull)]
                   [] sample_llm sample_llm 0 sample_store
                   (store_set sample_store 0
                      {| stored := [first_question;
                                    RunOutput.message sample_output] |})
                   {| RunInput.message := BaseMessage_of Role.USER "Und?" |}
                   {| RunInput.message := BaseMessage_of Role.USER "Und?" |}
                   None None sample_output _)).
  vm_compute. reflexivity.
Defined.
